(** * The dispatch core of ATen: dispatch keys and the operator entry

    A shallow embedding of [c10/core/DispatchKey.h] (the key enumeration and
    the decomposition of per-backend runtime keys) and of
    [ATen/core/dispatch/OperatorEntry.cpp] (the kernel registry of one
    operator and the computation of its dispatch table), with the properties
    of the specification stated over them. *)

From Stdlib Require Import ZArith Lia Bool List.
From stdpp Require Import base decidable option list gmap strings.

Local Open Scope Z_scope.

(** ** Dispatch keys ([c10/core/DispatchKey.h]) *)

(** [enum class BackendComponent : uint8_t]. *)
Definition BackendComponent := Z.

Module BackendComponent.
Definition InvalidBit : BackendComponent := 0.
Definition CPUBit : BackendComponent := 1.
Definition CUDABit : BackendComponent := 2.
Definition HIPBit : BackendComponent := 3.
Definition XLABit : BackendComponent := 4.
Definition MPSBit : BackendComponent := 5.
Definition IPUBit : BackendComponent := 6.
Definition XPUBit : BackendComponent := 7.
Definition HPUBit : BackendComponent := 8.
Definition VEBit : BackendComponent := 9.
Definition LazyBit : BackendComponent := 10.
Definition MetaBit : BackendComponent := 11.
Definition PrivateUse1Bit : BackendComponent := 12.
Definition PrivateUse2Bit : BackendComponent := 13.
Definition PrivateUse3Bit : BackendComponent := 14.
Definition EndOfBackendKeys : BackendComponent := PrivateUse3Bit.
End BackendComponent.

(** [enum class DispatchKey : uint16_t]; the enumerators in declaration
    order, each one more than the previous unless it is given a value. *)
Definition DispatchKey := Z.

Module DispatchKey.
Definition Undefined : DispatchKey := 0.
Definition CatchAll : DispatchKey := Undefined.
Definition Dense : DispatchKey := 1.
Definition FPGA : DispatchKey := 2.
Definition ORT : DispatchKey := 3.
Definition Vulkan : DispatchKey := 4.
Definition Metal : DispatchKey := 5.
Definition Quantized : DispatchKey := 6.
Definition CustomRNGKeyId : DispatchKey := 7.
Definition MkldnnCPU : DispatchKey := 8.
Definition Sparse : DispatchKey := 9.
Definition SparseCsrCPU : DispatchKey := 10.
Definition SparseCsrCUDA : DispatchKey := 11.
Definition EndOfNonCustomizableBackends : DispatchKey := SparseCsrCUDA.
Definition NestedTensor : DispatchKey := 12.
Definition BackendSelect : DispatchKey := 13.
Definition Python : DispatchKey := 14.
Definition Fake : DispatchKey := 15.
Definition FuncTorchDynamicLayerBackMode : DispatchKey := 16.
Definition Functionalize : DispatchKey := 17.
Definition Named : DispatchKey := 18.
Definition Conjugate : DispatchKey := 19.
Definition Negative : DispatchKey := 20.
Definition ZeroTensor : DispatchKey := 21.
Definition ADInplaceOrView : DispatchKey := 22.
Definition AutogradOther : DispatchKey := 23.
Definition AutogradFunctionality : DispatchKey := 24.
Definition AutogradNestedTensor : DispatchKey := 25.
Definition Tracer : DispatchKey := 26.
Definition AutocastCPU : DispatchKey := 27.
Definition AutocastXPU : DispatchKey := 28.
Definition AutocastCUDA : DispatchKey := 29.
Definition FuncTorchBatched : DispatchKey := 30.
Definition FuncTorchVmapMode : DispatchKey := 31.
Definition Batched : DispatchKey := 32.
Definition VmapMode : DispatchKey := 33.
Definition FuncTorchGradWrapper : DispatchKey := 34.
Definition DeferredInit : DispatchKey := 35.
Definition PythonTLSSnapshot : DispatchKey := 36.
Definition FuncTorchDynamicLayerFrontMode : DispatchKey := 37.
Definition TESTING_ONLY_GenericWrapper : DispatchKey := 38.
Definition TESTING_ONLY_GenericMode : DispatchKey := 39.
Definition EndOfFunctionalityKeys : DispatchKey := 40.

Definition StartOfDenseBackends : DispatchKey := 41.
Definition CPU : DispatchKey := 42.
Definition CUDA : DispatchKey := 43.
Definition HIP : DispatchKey := 44.
Definition XLA : DispatchKey := 45.
Definition MPS : DispatchKey := 46.
Definition IPU : DispatchKey := 47.
Definition XPU : DispatchKey := 48.
Definition HPU : DispatchKey := 49.
Definition VE : DispatchKey := 50.
Definition Lazy : DispatchKey := 51.
Definition Meta : DispatchKey := 52.
Definition PrivateUse1 : DispatchKey := 53.
Definition PrivateUse2 : DispatchKey := 54.
Definition PrivateUse3 : DispatchKey := 55.
Definition EndOfDenseBackends : DispatchKey := PrivateUse3.

Definition StartOfQuantizedBackends : DispatchKey := 56.
Definition QuantizedCPU : DispatchKey := 57.
Definition QuantizedCUDA : DispatchKey := 58.
Definition QuantizedXPU : DispatchKey := 63.
Definition _QuantizedPrivateUse3 : DispatchKey := 70.
Definition EndOfQuantizedBackends : DispatchKey := _QuantizedPrivateUse3.

Definition StartOfSparseBackends : DispatchKey := 71.
Definition SparseCPU : DispatchKey := 72.
Definition SparseCUDA : DispatchKey := 73.
Definition SparseHIP : DispatchKey := 74.
Definition SparseXPU : DispatchKey := 78.
Definition SparseVE : DispatchKey := 80.
Definition _SparsePrivateUse3 : DispatchKey := 85.
Definition EndOfSparseBackends : DispatchKey := _SparsePrivateUse3.

Definition StartOfNestedTensorBackends : DispatchKey := 86.
Definition NestedTensorCPU : DispatchKey := 87.
Definition NestedTensorCUDA : DispatchKey := 88.
Definition _NestedTensorPrivateUse3 : DispatchKey := 100.
Definition EndOfNestedTensorBackends : DispatchKey := _NestedTensorPrivateUse3.

Definition StartOfAutogradBackends : DispatchKey := 101.
Definition AutogradCPU : DispatchKey := 102.
Definition AutogradCUDA : DispatchKey := 103.
Definition _AutogradHIP : DispatchKey := 104.
Definition AutogradXLA : DispatchKey := 105.
Definition AutogradMPS : DispatchKey := 106.
Definition AutogradIPU : DispatchKey := 107.
Definition AutogradXPU : DispatchKey := 108.
Definition AutogradHPU : DispatchKey := 109.
Definition _AutogradVE : DispatchKey := 110.
Definition AutogradLazy : DispatchKey := 111.
Definition AutogradMeta : DispatchKey := 112.
Definition AutogradPrivateUse1 : DispatchKey := 113.
Definition AutogradPrivateUse2 : DispatchKey := 114.
Definition AutogradPrivateUse3 : DispatchKey := 115.
Definition EndOfAutogradBackends : DispatchKey := AutogradPrivateUse3.
Definition EndOfRuntimeBackendKeys : DispatchKey := EndOfAutogradBackends.

Definition Autograd : DispatchKey := 116.
Definition CompositeImplicitAutograd : DispatchKey := 117.
Definition CompositeExplicitAutograd : DispatchKey := 118.
Definition CompositeExplicitAutogradNonFunctional : DispatchKey := 119.
Definition StartOfAliasKeys : DispatchKey := Autograd.
Definition EndOfAliasKeys : DispatchKey := CompositeExplicitAutogradNonFunctional.
End DispatchKey.

(** The two integer widths the header casts through. *)
Definition to_uint8 (z : Z) : Z := z mod 256.
Definition to_uint16 (z : Z) : Z := z mod 65536.

Definition is_uint16 (z : Z) : Prop := 0 <= z < 65536.

Definition isAliasDispatchKey (k : DispatchKey) : bool :=
  (DispatchKey.StartOfAliasKeys <=? k) && (k <=? DispatchKey.EndOfAliasKeys).

Definition isPerBackendFunctionalityKey (k : DispatchKey) : bool :=
  if (k =? DispatchKey.Dense) || (k =? DispatchKey.Quantized) ||
     (k =? DispatchKey.Sparse) || (k =? DispatchKey.AutogradFunctionality) ||
     (k =? DispatchKey.NestedTensor)
  then true else false.

Definition num_functionality_keys : Z := to_uint8 DispatchKey.EndOfFunctionalityKeys.
Definition num_backends : Z := to_uint8 BackendComponent.EndOfBackendKeys.

(** [numPerBackendFunctionalityKeys]: the loop over [k = 0 .. num_functionality_keys]. *)
Definition numPerBackendFunctionalityKeys : Z :=
  Z.of_nat (length (filter (fun k => isPerBackendFunctionalityKey k = true)
                           (map Z.of_nat (seq 0 (S (Z.to_nat num_functionality_keys)))))).

Definition num_runtime_entries : Z :=
  to_uint16 (num_functionality_keys + numPerBackendFunctionalityKeys * (num_backends - 1)).

Definition full_backend_mask : Z := to_uint16 (to_uint16 (Z.shiftl 1 num_backends) - 1).

(** [toBackendComponent]: the offset of [k] in its per-backend range, cast
    back to the 8-bit [BackendComponent]. *)
Definition toBackendComponent (k : DispatchKey) : BackendComponent :=
  if (DispatchKey.StartOfDenseBackends <=? k) && (k <=? DispatchKey.EndOfDenseBackends) then
    to_uint8 (to_uint8 k - to_uint8 DispatchKey.StartOfDenseBackends)
  else if (DispatchKey.StartOfQuantizedBackends <=? k) && (k <=? DispatchKey.EndOfQuantizedBackends) then
    to_uint8 (to_uint8 k - to_uint8 DispatchKey.StartOfQuantizedBackends)
  else if (DispatchKey.StartOfSparseBackends <=? k) && (k <=? DispatchKey.EndOfSparseBackends) then
    to_uint8 (to_uint8 k - to_uint8 DispatchKey.StartOfSparseBackends)
  else if (DispatchKey.StartOfNestedTensorBackends <=? k) && (k <=? DispatchKey.EndOfNestedTensorBackends) then
    to_uint8 (to_uint8 k - to_uint8 DispatchKey.StartOfNestedTensorBackends)
  else if (DispatchKey.StartOfAutogradBackends <=? k) && (k <=? DispatchKey.EndOfAutogradBackends) then
    to_uint8 (to_uint8 k - to_uint8 DispatchKey.StartOfAutogradBackends)
  else BackendComponent.InvalidBit.

Definition toFunctionalityKey (k : DispatchKey) : DispatchKey :=
  if k <=? DispatchKey.EndOfFunctionalityKeys then k
  else if k <=? DispatchKey.EndOfDenseBackends then DispatchKey.Dense
  else if k <=? DispatchKey.EndOfQuantizedBackends then DispatchKey.Quantized
  else if k <=? DispatchKey.EndOfSparseBackends then DispatchKey.Sparse
  else if k <=? DispatchKey.EndOfNestedTensorBackends then DispatchKey.NestedTensor
  else if k <=? DispatchKey.EndOfAutogradBackends then DispatchKey.AutogradFunctionality
  else DispatchKey.Undefined.

Definition toRuntimePerBackendFunctionalityKey
    (functionality_k : DispatchKey) (backend_k : BackendComponent) : DispatchKey :=
  if functionality_k =? DispatchKey.Dense then
    to_uint16 (to_uint8 DispatchKey.StartOfDenseBackends + to_uint8 backend_k)
  else if functionality_k =? DispatchKey.Sparse then
    to_uint16 (to_uint8 DispatchKey.StartOfSparseBackends + to_uint8 backend_k)
  else if functionality_k =? DispatchKey.Quantized then
    to_uint16 (to_uint8 DispatchKey.StartOfQuantizedBackends + to_uint8 backend_k)
  else if functionality_k =? DispatchKey.NestedTensor then
    to_uint16 (to_uint8 DispatchKey.StartOfNestedTensorBackends + to_uint8 backend_k)
  else if functionality_k =? DispatchKey.AutogradFunctionality then
    to_uint16 (to_uint8 DispatchKey.StartOfAutogradBackends + to_uint8 backend_k)
  else DispatchKey.Undefined.

(** ** Kernel handles ([ATen/core/boxing/KernelFunction.h]) *)

(** The functions a handle can point to: the three kernels the header
    declares, and any other function, named by its address. *)
Inductive FnPtr : Type :=
  | nullptr
  | fallthrough_kernel
  | ambiguous_autogradother_kernel
  | named_not_supported_kernel
  | fn_at (addr : Z).

#[global] Instance FnPtr_eq_dec : EqDecision FnPtr.
Proof. solve_decision. Defined.

(** The three private members of [class KernelFunction]; [functor_] is the
    owned functor, if any, named by its address. *)
Record KernelFunction : Type := mkKernelFunction {
  functor_ : option Z;
  boxed_kernel_func_ : FnPtr;
  unboxed_kernel_func_ : FnPtr;
}.

#[global] Instance KernelFunction_eq_dec : EqDecision KernelFunction.
Proof. solve_decision. Defined.

Module KernelFunction.
(** Modelled from the spec: [KernelFunction_impl.h] is not part of the
    sources. The default constructor leaves every member null. *)
Definition default : KernelFunction := mkKernelFunction None nullptr nullptr.

(** Modelled from the spec: [KernelFunction_impl.h] is not part of the
    sources. "At least one of the two invoke forms must be present for the
    handle to be valid." *)
Definition isValid (k : KernelFunction) : bool :=
  negb (bool_decide (boxed_kernel_func_ k = nullptr))
  || negb (bool_decide (unboxed_kernel_func_ k = nullptr)).

(** Modelled from the spec: [KernelFunction_impl.h] is not part of the
    sources. "True if this handle was constructed via the reserved
    fallthrough marker." *)
Definition isFallthrough (k : KernelFunction) : bool :=
  bool_decide (boxed_kernel_func_ k = fallthrough_kernel).

(** Modelled from the spec: [KernelFunction_impl.h] is not part of the
    sources. The marker handles are built from a generic-invoke function
    pointer ("boxed"), which gives a valid handle without an unboxed form. *)
Definition makeFromBoxed (f : FnPtr) : KernelFunction := mkKernelFunction None f nullptr.
Definition makeFallthrough : KernelFunction := makeFromBoxed fallthrough_kernel.
Definition makeAmbiguousAutogradOther : KernelFunction :=
  makeFromBoxed ambiguous_autogradother_kernel.

(** Modelled from the spec: [KernelFunction.cpp] is not part of the
    sources. The comparison of the consistency check looks at the two
    invoke forms. *)
Definition _equalsBoxedAndUnboxed (k other : KernelFunction) : bool :=
  bool_decide (boxed_kernel_func_ k = boxed_kernel_func_ other)
  && bool_decide (unboxed_kernel_func_ k = unboxed_kernel_func_ other).
End KernelFunction.

(** ** The data of an operator entry

    [OperatorEntry.h] is not part of the sources; the records below hold the
    members [OperatorEntry.cpp] reads and writes, under the names it uses. *)

Definition OperatorName := string.

(** Modelled from the spec: [at::Tag], an enumeration that is not part of
    the sources; the entry only stores its values. *)
Definition Tag := Z.

(** Modelled from the spec: [FunctionSchema], of [function_schema.h], which
    is not part of the sources. A schema is registered as a "schema text";
    it carries the name of its operator. *)
Record FunctionSchema : Type := mkFunctionSchema {
  operator_name : OperatorName;
  schema_text : string;
}.

#[global] Instance FunctionSchema_eq_dec : EqDecision FunctionSchema.
Proof. solve_decision. Defined.

(** Modelled from the spec: [CppSignature], of a header that is not part of
    the sources. The "statically-derived call signature" of a kernel, which
    the entry only compares with [==]. *)
Definition CppSignature := string.

Record AnnotatedKernel : Type := mkAnnotatedKernel {
  kernel : KernelFunction;
  inferred_function_schema : option FunctionSchema;
  debug : string;
}.

#[global] Instance AnnotatedKernel_eq_dec : EqDecision AnnotatedKernel.
Proof. solve_decision. Defined.

Record AnnotatedSchema : Type := mkAnnotatedSchema {
  schema : FunctionSchema;
  schema_debug : string;
}.

#[global] Instance AnnotatedSchema_eq_dec : EqDecision AnnotatedSchema.
Proof. solve_decision. Defined.

Record CppSignatureWithDebug : Type := mkCppSignatureWithDebug {
  signature : CppSignature;
  signature_debug : string;
  dispatch_key : option DispatchKey;
}.

#[global] Instance CppSignatureWithDebug_eq_dec : EqDecision CppSignatureWithDebug.
Proof. solve_decision. Defined.

(** [AnnotatedKernelContainer] is a [std::list<AnnotatedKernel>]; an
    [AnnotatedKernelContainerIterator] designates one node of it and stays
    valid while other nodes come and go. A node is modelled by a number that
    is unique in its list, paired with the kernel it holds. *)
Abbreviation AnnotatedKernelContainerIterator := nat.
Abbreviation AnnotatedKernelContainer :=
  (list (AnnotatedKernelContainerIterator * AnnotatedKernel)).

(** The members of [OperatorEntry]. [dispatchTable_] is a
    [std::array<KernelFunction, num_runtime_entries>]; [kernels_] is a hash
    map from dispatch keys to the kernels registered for them. The
    [dispatchKeyExtractor_] member belongs to a class that is not part of the
    sources and that no function below reads; it is left out, as is the
    constant [is_observed_]. *)
Record OperatorEntry : Type := mkOperatorEntry {
  name_ : OperatorName;
  schema_ : option AnnotatedSchema;
  tags_ : list Tag;
  dispatchTable_ : list KernelFunction;
  kernels_ : gmap Z AnnotatedKernelContainer;
  cpp_signature_ : option CppSignatureWithDebug;
}.

(** The part of [c10::Dispatcher] the entry reads: one fallback kernel per
    slot of the dispatch table. *)
Record Dispatcher : Type := mkDispatcher {
  backendFallbackKernels_ : list AnnotatedKernel;
}.

(** ** Errors and the state-and-error monad *)

(** [TORCH_INTERNAL_ASSERT] and [TORCH_CHECK] throw; the two [TORCH_CHECK]s
    of the entry are the schema check and the signature check. Reading or
    writing an array outside its bounds, and erasing an iterator that is not
    in the list, are undefined in C++: the model reports them as errors of
    their own, so that nothing is proved from them. *)
Inductive Error : Type :=
  | InternalAssert
  | SchemaMismatch
  | SignatureMismatch
  | OutOfBounds
  | InvalidIterator.

#[global] Instance Error_eq_dec : EqDecision Error.
Proof. solve_decision. Defined.

Inductive Result (A : Type) : Type :=
  | Ok (a : A)
  | Err (e : Error).
Arguments Ok {A} a.
Arguments Err {A} e.

Definition Result_bind {A B : Type} (r : Result A) (f : A -> Result B) : Result B :=
  match r with
  | Ok a => f a
  | Err e => Err e
  end.

Notation "x <-? r ; k" := (Result_bind r (fun x => k))
  (at level 100, r at next level, right associativity, only parsing).

(** A member function that mutates the entry: it returns a value or throws,
    and in both cases leaves a state behind. *)
Definition M (A : Type) : Type := OperatorEntry -> Result A * OperatorEntry.

Definition ret {A : Type} (a : A) : M A := fun e => (Ok a, e).
Definition bind {A B : Type} (m : M A) (f : A -> M B) : M B :=
  fun e => match m e with
           | (Ok a, e') => f a e'
           | (Err x, e') => (Err x, e')
           end.

Notation "x <- m ;; k" := (bind m (fun x => k))
  (at level 100, m at next level, right associativity, only parsing).
Notation "m ;;; k" := (bind m (fun _ => k))
  (at level 100, right associativity, only parsing).

(** A range-based [for] loop whose body can throw. *)
Fixpoint for_each {A : Type} (l : list A) (body : A -> M unit) : M unit :=
  match l with
  | [] => ret tt
  | x :: l' => body x ;;; for_each l' body
  end.

(** ** What the entry takes from headers that are not part of the sources

    [c10/core/DispatchKeySet.h], [DispatchKey.cpp], [OperatorEntry.h] and
    [function_schema.h] give the entry its key sets, the alias membership
    test, the table index of a key and the schema comparison. The entry is
    written against this interface; the concrete key sets follow further
    down. *)
Class KeySets : Type := {
  DispatchKeySet : Type;
  (** [DispatchKeySet::has] *)
  has : DispatchKeySet -> DispatchKey -> bool;
  (** the keys a range-based [for] over the set visits, in order *)
  keys_of : DispatchKeySet -> list DispatchKey;
  (** [DispatchKeySet(DispatchKeySet::FULL)] *)
  FULL : DispatchKeySet;
  autogradother_backends : DispatchKeySet;
  getRuntimeDispatchKeySet : DispatchKey -> DispatchKeySet;
  isIncludedInAlias : DispatchKey -> DispatchKey -> bool;
  getBackendKeySetFromAutograd : DispatchKey -> DispatchKeySet;
  isBackendDispatchKey : DispatchKey -> bool;
  getAutogradKeyFromBackend : BackendComponent -> DispatchKey;
  getDispatchTableIndexForDispatchKey : DispatchKey -> Z;
  findSchemaDifferences : FunctionSchema -> FunctionSchema -> option string;
}.

(** ** The operator entry ([ATen/core/dispatch/OperatorEntry.cpp]) *)

Section OperatorEntry.
Context `{KS : KeySets}.

Definition checkSchema (from_def inferred : FunctionSchema) : Result unit :=
  match findSchemaDifferences from_def inferred with
  | Some _ => Err SchemaMismatch
  | None => Ok tt
  end.

(** [AnnotatedKernel()]: an invalid kernel, no schema, an empty label. *)
Definition missingKernel : AnnotatedKernel :=
  mkAnnotatedKernel KernelFunction.default None "".

Definition ambiguousAutogradOtherKernel : AnnotatedKernel :=
  mkAnnotatedKernel KernelFunction.makeAmbiguousAutogradOther None "ambiguous_autogradother".

(** The inferred schemas of all registered kernels, in the order the two
    nested loops of [registerSchema] visit them. *)
Definition registered_kernels (e : OperatorEntry) : list AnnotatedKernel :=
  concat (map (fun kv => map snd (snd kv)) (map_to_list (kernels_ e))).

Fixpoint check_all_schemas (sch : FunctionSchema) (ks : list AnnotatedKernel) : Result unit :=
  match ks with
  | [] => Ok tt
  | j :: ks' =>
      _ <-? match inferred_function_schema j with
            | Some inferred => checkSchema sch inferred
            | None => Ok tt
            end;
      check_all_schemas sch ks'
  end.

Definition registerSchema (sch : FunctionSchema) (dbg : string) (tags : list Tag) : M unit :=
  fun e =>
    if bool_decide (schema_ e = None) then
      match check_all_schemas sch (registered_kernels e) with
      | Err x => (Err x, e)
      | Ok _ =>
          (* NB: don't register schema until after we've checked everything! *)
          (Ok tt, mkOperatorEntry (name_ e) (Some (mkAnnotatedSchema sch dbg)) tags
                    (dispatchTable_ e) (kernels_ e) (cpp_signature_ e))
      end
    else (Err InternalAssert, e).

Definition deregisterSchema : M unit :=
  fun e =>
    if bool_decide (schema_ e = None) then (Err InternalAssert, e)
    else (Ok tt, mkOperatorEntry (name_ e) None (tags_ e) (dispatchTable_ e) (kernels_ e)
                   (cpp_signature_ e)).

Definition getKernelForDispatchKey (e : OperatorEntry) (dispatch_key : DispatchKey)
    : Result (option AnnotatedKernel) :=
  match kernels_ e !! dispatch_key with
  | Some kern =>
      match kern with
      | [] => Err InternalAssert
      | front :: _ =>
          if KernelFunction.isValid (kernel (snd front)) then Ok (Some (snd front))
          else Err InternalAssert
      end
  | None => Ok None
  end.

Definition hasKernelForAnyDispatchKey (e : OperatorEntry) (ks : DispatchKeySet) : Result bool :=
  if bool_decide (kernels_ e !! DispatchKey.Undefined = None) then
    Ok (existsb (fun kv => negb (isAliasDispatchKey (fst kv)) && has ks (fst kv))
                (map_to_list (kernels_ e)))
  else Err InternalAssert.

Definition hasKernelForDispatchKey (e : OperatorEntry) (k : DispatchKey) : Result bool :=
  if bool_decide (kernels_ e !! DispatchKey.Undefined = None) then
    Ok (existsb (fun kv => k =? fst kv) (map_to_list (kernels_ e)))
  else Err InternalAssert.

(** [A || B] and [A && B] where both sides can throw: [B] runs only when
    [A] does not decide. *)
Definition orelse (a : Result bool) (b : Result bool) : Result bool :=
  x <-? a; if x then Ok true else b.
Definition andalso (a : bool) (b : Result bool) : Result bool :=
  if a then b else Ok false.

(** The lookup of an alias kernel guarded by the membership of the key in
    the alias: [if (cond) { if (auto r = getKernelForDispatchKey(alias)) ... }]. *)
Definition alias_registration (e : OperatorEntry) (cond : bool) (alias : DispatchKey)
    : Result (option AnnotatedKernel) :=
  if cond then getKernelForDispatchKey e alias else Ok None.

Definition computeDispatchTableEntryWithDebug
    (e : OperatorEntry) (dispatcher : Dispatcher) (dispatch_key : DispatchKey)
    : Result (AnnotatedKernel * string) :=
  (* 1. Operator registration *)
  direct_registration <-? getKernelForDispatchKey e dispatch_key;
  match direct_registration with
  | Some r => Ok (r, "kernel")
  | None =>
  (* 2.1 *)
  r21 <-? alias_registration e
            ((dispatch_key =? DispatchKey.Undefined)
             || isIncludedInAlias dispatch_key DispatchKey.CompositeExplicitAutogradNonFunctional)
            DispatchKey.CompositeExplicitAutogradNonFunctional;
  match r21 with
  | Some r => Ok (r, "default backend kernel")
  | None =>
  (* 2.2 *)
  r22 <-? alias_registration e
            ((dispatch_key =? DispatchKey.Undefined)
             || isIncludedInAlias dispatch_key DispatchKey.CompositeExplicitAutograd)
            DispatchKey.CompositeExplicitAutograd;
  match r22 with
  | Some r => Ok (r, "default backend kernel")
  | None =>
  has_backend_kernel <-?
    orelse (hasKernelForAnyDispatchKey e (getBackendKeySetFromAutograd dispatch_key))
           (hasKernelForDispatchKey e DispatchKey.CompositeExplicitAutograd);
  (* 2.3 *)
  r23 <-? (math_registration <-?
             alias_registration e
               ((dispatch_key =? DispatchKey.Undefined)
                || isIncludedInAlias dispatch_key DispatchKey.CompositeImplicitAutograd)
               DispatchKey.CompositeImplicitAutograd;
           match math_registration with
           | Some m =>
               ambiguous <-? andalso (dispatch_key =? DispatchKey.AutogradOther)
                               (hasKernelForAnyDispatchKey e autogradother_backends);
               if ambiguous then Ok (Some (ambiguousAutogradOtherKernel, "ambiguous autogradother"))
               else if negb has_backend_kernel then Ok (Some (m, "math kernel"))
               else Ok None
           | None => Ok None
           end);
  match r23 with
  | Some r => Ok r
  | None =>
  (* 2.4 *)
  r24 <-? alias_registration e (isIncludedInAlias dispatch_key DispatchKey.Autograd)
            DispatchKey.Autograd;
  match r24 with
  | Some r => Ok (r, "autograd kernel")
  | None =>
  (* 3. Backend fallback *)
  let dispatch_ix := getDispatchTableIndexForDispatchKey dispatch_key in
  if dispatch_ix <? 0 then Ok (missingKernel, "backend fallback not registered on mobile")
  else
    match backendFallbackKernels_ dispatcher !! Z.to_nat dispatch_ix with
    | None => Err OutOfBounds
    | Some fallback =>
        if KernelFunction.isValid (kernel fallback) then Ok (fallback, "backend fallback")
        else (* 4. Default to error *) Ok (missingKernel, "missing")
    end
  end end end end end.

Definition computeDispatchTableEntry
    (e : OperatorEntry) (dispatcher : Dispatcher) (dispatch_key : DispatchKey)
    : Result KernelFunction :=
  r <-? computeDispatchTableEntryWithDebug e dispatcher dispatch_key; Ok (kernel (fst r)).

Definition set_dispatchTable (e : OperatorEntry) (t : list KernelFunction) : OperatorEntry :=
  mkOperatorEntry (name_ e) (schema_ e) (tags_ e) t (kernels_ e) (cpp_signature_ e).

Definition set_kernels (e : OperatorEntry) (m : gmap Z AnnotatedKernelContainer) : OperatorEntry :=
  mkOperatorEntry (name_ e) (schema_ e) (tags_ e) (dispatchTable_ e) m (cpp_signature_ e).

Definition set_cpp_signature (e : OperatorEntry) (s : option CppSignatureWithDebug) : OperatorEntry :=
  mkOperatorEntry (name_ e) (schema_ e) (tags_ e) (dispatchTable_ e) (kernels_ e) s.

(** Synchronizes the table slot of one key with the registrations. *)
Definition updateDispatchTableEntry_ (dispatcher : Dispatcher) (dispatch_key : DispatchKey)
    : M unit :=
  fun e =>
    let dispatch_ix := getDispatchTableIndexForDispatchKey dispatch_key in
    if dispatch_ix =? -1 then (Ok tt, e)
    else
      match computeDispatchTableEntry e dispatcher dispatch_key with
      | Err x => (Err x, e)
      | Ok k =>
          if (0 <=? dispatch_ix) && (dispatch_ix <? Z.of_nat (length (dispatchTable_ e))) then
            (Ok tt, set_dispatchTable e (<[Z.to_nat dispatch_ix := k]> (dispatchTable_ e)))
          else (Err OutOfBounds, e)
      end.

(** Synchronizes the slots of a key and of the keys associated with it. *)
Definition updateDispatchTable_ (dispatcher : Dispatcher) (dispatch_key : DispatchKey)
    : M unit :=
  if dispatch_key =? DispatchKey.Undefined then
    updateDispatchTableEntry_ dispatcher dispatch_key
  else
    for_each (keys_of (getRuntimeDispatchKeySet dispatch_key))
             (updateDispatchTableEntry_ dispatcher) ;;;
    (if (dispatch_key =? DispatchKey.CompositeImplicitAutograd)
        || (dispatch_key =? DispatchKey.CompositeExplicitAutograd)
        || (dispatch_key =? DispatchKey.CompositeExplicitAutogradNonFunctional)
     then updateDispatchTableEntry_ dispatcher DispatchKey.Undefined
     else ret tt) ;;;
    (if isBackendDispatchKey dispatch_key then
       updateDispatchTableEntry_ dispatcher
         (getAutogradKeyFromBackend (toBackendComponent dispatch_key))
     else ret tt).

Definition updateDispatchTableFull_ (dispatcher : Dispatcher) : M unit :=
  updateDispatchTable_ dispatcher DispatchKey.Undefined ;;;
  for_each (keys_of FULL) (updateDispatchTable_ dispatcher).

Definition updateFallback (dispatcher : Dispatcher) (dispatch_key : DispatchKey) : M unit :=
  updateDispatchTable_ dispatcher dispatch_key.

(** The node [emplace_front] allocates: a number no node of the list has. *)
Definition fresh_iterator (k : AnnotatedKernelContainer) : AnnotatedKernelContainerIterator :=
  S (foldr (fun n acc => Nat.max (fst n) acc) 0%nat k).

(** The key a registration is stored under: catchAll registrations are
    redirected to [CompositeImplicitAutograd]. *)
Definition target_key (dispatch_key : option DispatchKey) : DispatchKey :=
  match dispatch_key with
  | Some k => k
  | None => DispatchKey.CompositeImplicitAutograd
  end.

(** The first block of [registerKernel]: the signature of the kernel is
    compared with the recorded one, or recorded when there is none. *)
Definition check_cpp_signature (dispatch_key : option DispatchKey)
    (cpp_signature : option CppSignature) (debug : string) : M unit :=
  fun e =>
    match cpp_signature with
    | Some sig =>
        match cpp_signature_ e with
        | Some recorded =>
            if bool_decide (sig = signature recorded) then (Ok tt, e)
            else (Err SignatureMismatch, e)
        | None =>
            (Ok tt, set_cpp_signature e (Some (mkCppSignatureWithDebug sig debug dispatch_key)))
        end
    | None => (Ok tt, e)
    end.

(** The second block: the inferred schema against the declared one. *)
Definition check_inferred_schema (inferred_function_schema : option FunctionSchema) : M unit :=
  fun e =>
    match schema_ e, inferred_function_schema with
    | Some s, Some inferred => (checkSchema (schema s) inferred, e)
    | _, _ => (Ok tt, e)
    end.

(** [kernels_[dk].emplace_front(...)], creating the list if there is none. *)
Definition emplace_front (dk : DispatchKey) (a : AnnotatedKernel)
    : M AnnotatedKernelContainerIterator :=
  fun e =>
    let k := default [] (kernels_ e !! dk) in
    let inserted := fresh_iterator k in
    (Ok inserted, set_kernels e (<[dk := (inserted, a) :: k]> (kernels_ e))).

Definition registerKernel
    (dispatcher : Dispatcher) (dispatch_key : option DispatchKey)
    (kernel : KernelFunction) (cpp_signature : option CppSignature)
    (inferred_function_schema : option FunctionSchema) (debug : string)
    : M AnnotatedKernelContainerIterator :=
  check_cpp_signature dispatch_key cpp_signature debug ;;;
  check_inferred_schema inferred_function_schema ;;;
  (* the warning on an overridden kernel leaves the state alone *)
  inserted <- emplace_front (target_key dispatch_key)
                (mkAnnotatedKernel kernel inferred_function_schema debug) ;;
  (match dispatch_key with
   | Some k => updateDispatchTable_ dispatcher k
   | None => updateDispatchTableFull_ dispatcher
   end) ;;;
  ret inserted.

Definition erase (it : AnnotatedKernelContainerIterator) (k : AnnotatedKernelContainer)
    : AnnotatedKernelContainer :=
  filter (fun n => fst n <> it) k.

(** The lookup and the [erase] of [deregisterKernel_]; a list that becomes
    empty is removed from the map. *)
Definition erase_registered (dk : DispatchKey) (kernel : AnnotatedKernelContainerIterator)
    : M unit :=
  fun e =>
    match kernels_ e !! dk with
    | None => (Err InternalAssert, e)
    | Some k =>
        if bool_decide (kernel ∈ map fst k) then
          let k' := erase kernel k in
          if bool_decide (k' = []) then (Ok tt, set_kernels e (delete dk (kernels_ e)))
          else (Ok tt, set_kernels e (<[dk := k']> (kernels_ e)))
        else (Err InvalidIterator, e)
    end.

Definition deregisterKernel_
    (dispatcher : Dispatcher) (dispatch_key : option DispatchKey)
    (kernel : AnnotatedKernelContainerIterator) : M unit :=
  let dk := target_key dispatch_key in
  erase_registered dk kernel ;;;
  updateDispatchTable_ dispatcher dk.

(** [checkInvariants]; the check of the key extractor is outside the model. *)
Definition checkInvariants (dispatcher : Dispatcher) (e : OperatorEntry) : Result unit :=
  _ <-? match schema_ e with
        | Some s =>
            if bool_decide (operator_name (schema s) = name_ e) then Ok tt
            else Err InternalAssert
        | None => Ok tt
        end;
  _ <-? (if bool_decide (kernels_ e !! DispatchKey.Undefined = None) then Ok tt
         else Err InternalAssert);
  _ <-? (if forallb (fun kv => negb (bool_decide (snd kv = [])))
                    (map_to_list (kernels_ e))
         then Ok tt else Err InternalAssert);
  (fix loop (ks : list DispatchKey) : Result unit :=
     match ks with
     | [] => Ok tt
     | k :: ks' =>
         expected_k <-? computeDispatchTableEntry e dispatcher k;
         let idx := getDispatchTableIndexForDispatchKey k in
         if idx =? -1 then loop ks'
         else if idx <? 0 then Err OutOfBounds
         else
           match dispatchTable_ e !! Z.to_nat idx with
           | None => Err OutOfBounds
           | Some live =>
               if KernelFunction._equalsBoxedAndUnboxed expected_k live then loop ks'
               else Err InternalAssert
           end
     end) (keys_of FULL).

(** The constructor: an empty entry, then a full update of the table to pick
    up the backend fallbacks registered before. *)
Definition OperatorEntry_new (dispatcher : Dispatcher) (operator_name : OperatorName)
    : Result unit * OperatorEntry :=
  updateDispatchTableFull_ dispatcher
    (mkOperatorEntry operator_name None []
       (replicate (Z.to_nat num_runtime_entries) KernelFunction.default) ∅ None).

End OperatorEntry.

(** ** The key sets

    [c10/core/DispatchKeySet.h], [DispatchKeySet.cpp], [DispatchKey.cpp],
    [OperatorEntry.h] and [function_schema.h] are not part of the sources.
    The definitions of this module fill the interface [KeySets] from what
    the specification says of the key algebra and from what the comments of
    [DispatchKey.h] and of [computeDispatchTableEntryWithDebug] say of the
    alias keys. *)
Module KeySetModel.

(** Modelled from the spec: the representation of [DispatchKeySet]. "A
    bitmask union of dispatch keys", which "fits a single machine word". *)
Definition repr := Z.

(** Modelled from the spec: the bit of a functionality key. The backend bits
    are the bottom bits of the word, the functionality bits the ones above
    ([DispatchKey.h]: "the bottom ~12 BackendComponent bits, while the
    remaining upper bits are assigned to functionalities"). *)
Definition functionality_bit (k : DispatchKey) : Z :=
  Z.shiftl 1 (num_backends + to_uint8 k - 1).

(** Modelled from the spec: the bit of a backend; [InvalidBit] has none. *)
Definition backend_bit (b : BackendComponent) : Z :=
  if b =? BackendComponent.InvalidBit then 0 else Z.shiftl 1 (to_uint8 b - 1).

(** Modelled from the spec: the constructor [DispatchKeySet(DispatchKey)]. A
    functionality bit, with a backend bit for a per-backend runtime key;
    empty for [Undefined] and for an alias key, which is "never present in a
    key-set bitmask". *)
Definition of_key (k : DispatchKey) : repr :=
  if k =? DispatchKey.Undefined then 0
  else if k <=? DispatchKey.EndOfFunctionalityKeys then functionality_bit k
  else if k <=? DispatchKey.EndOfRuntimeBackendKeys then
    Z.lor (functionality_bit (toFunctionalityKey k)) (backend_bit (toBackendComponent k))
  else 0.

(** Modelled from the spec: the constructor from a list of keys, "a bitmask
    union of dispatch keys". *)
Definition of_keys (ks : list DispatchKey) : repr :=
  foldr (fun k acc => Z.lor (of_key k) acc) 0 ks.

(** Modelled from the spec: [DispatchKeySet::has_all], the inclusion of
    bitmasks. *)
Definition has_all (s ks : repr) : bool := Z.land s ks =? ks.

(** Modelled from the spec: [DispatchKeySet::has], the membership of a key:
    all the bits of the key are in the set. *)
Definition has (s : repr) (t : DispatchKey) : bool := has_all s (of_key t).

(** Modelled from the spec: [DispatchKeySet::remove], which clears the bits
    of a key. *)
Definition remove (s : repr) (t : DispatchKey) : repr := Z.land s (Z.lnot (of_key t)).

(** Modelled from the spec: [DispatchKeySet::remove_backend], which clears
    the bit of a backend. *)
Definition remove_backend (s : repr) (b : BackendComponent) : repr :=
  Z.land s (Z.lnot (backend_bit b)).

(** Modelled from the spec: [DispatchKeySet(DispatchKeySet::FULL)], every
    backend bit and every functionality bit. *)
Definition FULL : repr :=
  Z.shiftl 1 (num_backends + num_functionality_keys - 1) - 1.

(** Modelled from the spec: the set of all backend bits, from
    [full_backend_mask] of [DispatchKey.h]. *)
Definition backend_mask : repr := full_backend_mask.

(** Modelled from the spec: the iteration over a [DispatchKeySet]. It
    yields the runtime keys of the set, functionality by functionality: a
    non-customizable functionality is "itself", a per-backend functionality
    gives "the cross product" with the backend bits of the set. *)
Definition keys_of (s : repr) : list DispatchKey :=
  flat_map
    (fun f : Z =>
       if Z.testbit s (num_backends + f - 1) then
         if isPerBackendFunctionalityKey f then
           flat_map
             (fun b : Z =>
                if Z.testbit s (b - 1)
                then [toRuntimePerBackendFunctionalityKey f b] else [])
             (map Z.of_nat (seq 1 (Z.to_nat num_backends)))
         else [f]
       else [])
    (map Z.of_nat (seq 1 (Z.to_nat num_functionality_keys - 1))).

(** Modelled from the spec: [autogradother_backends], the backends that
    "funnel into" the catch-all autograd key. [DispatchKey.h] names them:
    the non-customizable backends above [EndOfNonCustomizableBackends], and
    the sparse and quantized instances of every backend ("all other in-tree
    backends share the AutogradOther key"). *)
Definition autogradother_backends : repr :=
  Z.lor
    (of_keys [DispatchKey.FPGA; DispatchKey.ORT; DispatchKey.Vulkan; DispatchKey.Metal;
              DispatchKey.SparseCsrCPU; DispatchKey.SparseCsrCUDA;
              DispatchKey.CustomRNGKeyId; DispatchKey.MkldnnCPU;
              DispatchKey.Sparse; DispatchKey.Quantized])
    backend_mask.

(** Modelled from the spec: the functionalities of the "generic autograd"
    alias, the autograd keys of the enumeration. *)
Definition autograd_dispatch_keyset : repr :=
  of_keys [DispatchKey.AutogradFunctionality; DispatchKey.AutogradOther;
           DispatchKey.AutogradNestedTensor].

(** Modelled from the spec: the key set of the "explicit-backend" alias,
    "a kernel that works for all backend in inference" which "requires
    separate registration for Autograd keys": the dense backends and the
    backends of [autogradother_backends]. *)
Definition backend_dispatch_keyset : repr :=
  Z.lor autogradother_backends (of_key DispatchKey.Dense).

(** Modelled from the spec: the key set of the "explicit-backend,
    non-functional-safe" alias, "all backends in inference, except
    functional backends like LazyTensor/XLA". *)
Definition non_functional_backend_dispatch_keyset : repr :=
  remove_backend
    (remove_backend (remove backend_dispatch_keyset DispatchKey.Sparse)
       BackendComponent.XLABit)
    BackendComponent.LazyBit.

(** Modelled from the spec: the key set of the "implicit-backend" alias: the
    backend keys and the autograd keys ("for autograd keys, we only use
    kernel from CompositeImplicitAutograd when ..."), and [NestedTensor]. *)
Definition math_dispatch_keyset : repr :=
  Z.lor (Z.lor backend_dispatch_keyset autograd_dispatch_keyset)
        (of_key DispatchKey.NestedTensor).

(** Modelled from the spec: [getRuntimeDispatchKeySet]. The key set of an
    alias; for a functionality key "the runtime key set it denotes (itself
    if non-customizable, else the cross product with all backends)"; for a
    runtime key, itself. *)
Definition getRuntimeDispatchKeySet (t : DispatchKey) : repr :=
  if t =? DispatchKey.Autograd then Z.lor autograd_dispatch_keyset backend_mask
  else if t =? DispatchKey.CompositeImplicitAutograd then math_dispatch_keyset
  else if t =? DispatchKey.CompositeExplicitAutograd then backend_dispatch_keyset
  else if t =? DispatchKey.CompositeExplicitAutogradNonFunctional then
    non_functional_backend_dispatch_keyset
  else if isPerBackendFunctionalityKey t then Z.lor (of_key t) backend_mask
  else of_key t.

(** Modelled from the spec: the membership of a runtime key [k] in the
    "implied key set" of [t]. *)
Definition runtimeDispatchKeySetHas (t k : DispatchKey) : bool :=
  if t =? DispatchKey.Autograd then has autograd_dispatch_keyset (toFunctionalityKey k)
  else if t =? DispatchKey.CompositeImplicitAutograd then has math_dispatch_keyset k
  else if t =? DispatchKey.CompositeExplicitAutograd then
    negb (k =? DispatchKey.NestedTensor) && has backend_dispatch_keyset k
  else if t =? DispatchKey.CompositeExplicitAutogradNonFunctional then
    negb (k =? DispatchKey.NestedTensor) && has non_functional_backend_dispatch_keyset k
  else t =? k.

(** Modelled from the spec: [isIncludedInAlias]. "[K] belongs to that
    alias's implied key set"; false for [Undefined], which "cannot be
    represented in a DispatchKeySet". *)
Definition isIncludedInAlias (k alias : DispatchKey) : bool :=
  negb (k =? DispatchKey.Undefined) && runtimeDispatchKeySetHas alias k.

(** Modelled from the spec: [getBackendKeySetFromAutograd]. The backend
    keys an autograd key stands above: the backend of a per-backend autograd
    key, the backends that funnel into it for the catch-all autograd key;
    empty for any other key. *)
Definition getBackendKeySetFromAutograd (t : DispatchKey) : repr :=
  if t =? DispatchKey.AutogradOther then autogradother_backends
  else if t =? DispatchKey.AutogradNestedTensor then of_key DispatchKey.NestedTensor
  else if (DispatchKey.StartOfAutogradBackends <? t) && (t <=? DispatchKey.EndOfAutogradBackends)
          && negb (t =? DispatchKey._AutogradHIP) && negb (t =? DispatchKey._AutogradVE)
  then of_key (toRuntimePerBackendFunctionalityKey DispatchKey.Dense (toBackendComponent t))
  else 0.

(** Modelled from the spec: [isBackendDispatchKey], a "concrete backend
    key": a key of the backend key set that is neither [Undefined] nor an
    alias nor [NestedTensor]. *)
Definition isBackendDispatchKey (t : DispatchKey) : bool :=
  negb (t =? DispatchKey.Undefined) && negb (isAliasDispatchKey t)
  && negb (t =? DispatchKey.NestedTensor) && has backend_dispatch_keyset t.

(** Modelled from the spec: [getAutogradKeyFromBackend], "that backend's
    derived autograd key": its own where the enumeration has one in use,
    the catch-all [AutogradOther] otherwise. *)
Definition getAutogradKeyFromBackend (b : BackendComponent) : DispatchKey :=
  if (b =? BackendComponent.InvalidBit) || (b =? BackendComponent.HIPBit)
     || (b =? BackendComponent.VEBit) || negb ((0 <? b) && (b <=? num_backends))
  then DispatchKey.AutogradOther
  else toRuntimePerBackendFunctionalityKey DispatchKey.AutogradFunctionality b.

(** Modelled from the spec: the first slot of a functionality in the
    dispatch table, "a fixed array, indexed by runtime dispatch key": one
    slot for each non-customizable functionality before it, [num_backends]
    for each per-backend one. *)
Definition functionality_offset (f : DispatchKey) : Z :=
  foldr (fun g acc => (if isPerBackendFunctionalityKey g then num_backends else 1) + acc)
        0 (map Z.of_nat (seq 0 (Z.to_nat f))).

(** Modelled from the spec: [getDispatchTableIndexForDispatchKey], the slot
    of a runtime key; slot 0 is the one of [Undefined]. *)
Definition getDispatchTableIndexForDispatchKey (k : DispatchKey) : Z :=
  if (k <=? DispatchKey.Undefined) || (DispatchKey.EndOfRuntimeBackendKeys <? k) then 0
  else
    let f := toFunctionalityKey k in
    let b := toBackendComponent k in
    functionality_offset f
    + (if isPerBackendFunctionalityKey f && negb (b =? BackendComponent.InvalidBit)
       then b - 1 else 0).

(** Modelled from the spec: [findSchemaDifferences]. Two schemas disagree
    when their texts differ; the difference is reported as a message. *)
Definition findSchemaDifferences (lhs rhs : FunctionSchema) : option string :=
  if bool_decide (schema_text lhs = schema_text rhs) then None
  else Some "schemas differ"%string.

End KeySetModel.

#[global] Instance key_sets : KeySets := {|
  DispatchKeySet := KeySetModel.repr;
  has := KeySetModel.has;
  keys_of := KeySetModel.keys_of;
  FULL := KeySetModel.FULL;
  autogradother_backends := KeySetModel.autogradother_backends;
  getRuntimeDispatchKeySet := KeySetModel.getRuntimeDispatchKeySet;
  isIncludedInAlias := KeySetModel.isIncludedInAlias;
  getBackendKeySetFromAutograd := KeySetModel.getBackendKeySetFromAutograd;
  isBackendDispatchKey := KeySetModel.isBackendDispatchKey;
  getAutogradKeyFromBackend := KeySetModel.getAutogradKeyFromBackend;
  getDispatchTableIndexForDispatchKey := KeySetModel.getDispatchTableIndexForDispatchKey;
  findSchemaDifferences := KeySetModel.findSchemaDifferences;
|}.

(** ** The precedence rules, as the specification words them

    The winning kernel as a function of the kernel map and of the fallback
    table alone: the list of the rules in their order, each giving a kernel
    when it applies, and the first one that applies wins. *)

Section Precedence.
Context `{KS : KeySets}.

(** The front of the list registered for a key. *)
Definition active (kernels : gmap Z AnnotatedKernelContainer) (k : DispatchKey)
    : option AnnotatedKernel :=
  match kernels !! k with
  | Some (front :: _) => Some (snd front)
  | _ => None
  end.

(** Some key of the set has a list in the map (alias keys never count). *)
Definition registered_in (kernels : gmap Z AnnotatedKernelContainer) (ks : DispatchKeySet)
    : bool :=
  existsb (fun kv => negb (isAliasDispatchKey (fst kv)) && has ks (fst kv))
          (map_to_list kernels).

Definition registered_at (kernels : gmap Z AnnotatedKernelContainer) (k : DispatchKey) : bool :=
  bool_decide (is_Some (kernels !! k)).

(** "[K] is Undefined or [K] belongs to that alias's implied key set." *)
Definition alias_applies (K alias : DispatchKey) : bool :=
  (K =? DispatchKey.Undefined) || isIncludedInAlias K alias.

(** The backend-kernel exception of the implicit-backend rule, as the code
    has it: a key of the backend key set of [K] has a kernel, or the
    explicit-backend alias has one. *)
Definition has_backend_kernel (kernels : gmap Z AnnotatedKernelContainer) (K : DispatchKey)
    : bool :=
  registered_in kernels (getBackendKeySetFromAutograd K)
  || registered_at kernels DispatchKey.CompositeExplicitAutograd.

Definition labelled (label : string) (k : option AnnotatedKernel)
    : option (AnnotatedKernel * string) :=
  match k with
  | Some a => Some (a, label)
  | None => None
  end.

Definition rule_direct kernels (K : DispatchKey) :=
  labelled "kernel" (active kernels K).

Definition rule_explicit_nonfunctional kernels (K : DispatchKey) :=
  if alias_applies K DispatchKey.CompositeExplicitAutogradNonFunctional
  then labelled "default backend kernel"
         (active kernels DispatchKey.CompositeExplicitAutogradNonFunctional)
  else None.

Definition rule_explicit kernels (K : DispatchKey) :=
  if alias_applies K DispatchKey.CompositeExplicitAutograd
  then labelled "default backend kernel" (active kernels DispatchKey.CompositeExplicitAutograd)
  else None.

(** The implicit-backend rule, exception (a): the ambiguous marker. *)
Definition rule_ambiguous kernels (K : DispatchKey) : option (AnnotatedKernel * string) :=
  if alias_applies K DispatchKey.CompositeImplicitAutograd
     && bool_decide (is_Some (active kernels DispatchKey.CompositeImplicitAutograd))
     && (K =? DispatchKey.AutogradOther) && registered_in kernels autogradother_backends
  then Some (ambiguousAutogradOtherKernel, "ambiguous autogradother"%string)
  else None.

(** The implicit-backend rule itself, under exception (b). *)
Definition rule_implicit kernels (K : DispatchKey) :=
  if alias_applies K DispatchKey.CompositeImplicitAutograd && negb (has_backend_kernel kernels K)
  then labelled "math kernel" (active kernels DispatchKey.CompositeImplicitAutograd)
  else None.

Definition rule_autograd kernels (K : DispatchKey) :=
  if isIncludedInAlias K DispatchKey.Autograd
  then labelled "autograd kernel" (active kernels DispatchKey.Autograd)
  else None.

Definition rule_fallback (dispatcher : Dispatcher) (K : DispatchKey) :=
  let ix := getDispatchTableIndexForDispatchKey K in
  if ix <? 0 then None
  else
    match backendFallbackKernels_ dispatcher !! Z.to_nat ix with
    | Some fallback =>
        if KernelFunction.isValid (kernel fallback) then Some (fallback, "backend fallback"%string)
        else None
    | None => None
    end.

Definition missing_marker (K : DispatchKey) : AnnotatedKernel * string :=
  (missingKernel,
   if getDispatchTableIndexForDispatchKey K <? 0
   then "backend fallback not registered on mobile"%string else "missing"%string).

Fixpoint first_applicable {A : Type} (rules : list (option A)) (otherwise : A) : A :=
  match rules with
  | [] => otherwise
  | Some a :: _ => a
  | None :: rules' => first_applicable rules' otherwise
  end.

Definition precedence (kernels : gmap Z AnnotatedKernelContainer) (dispatcher : Dispatcher)
    (K : DispatchKey) : AnnotatedKernel * string :=
  first_applicable
    [ rule_direct kernels K;
      rule_explicit_nonfunctional kernels K;
      rule_explicit kernels K;
      rule_ambiguous kernels K;
      rule_implicit kernels K;
      rule_autograd kernels K;
      rule_fallback dispatcher K ]
    (missing_marker K).

(** The same list without the implicit-backend kernel: what is left when
    that rule is skipped. *)
Definition precedence_skipping_implicit (kernels : gmap Z AnnotatedKernelContainer)
    (dispatcher : Dispatcher) (K : DispatchKey) : AnnotatedKernel * string :=
  first_applicable
    [ rule_direct kernels K;
      rule_explicit_nonfunctional kernels K;
      rule_explicit kernels K;
      rule_ambiguous kernels K;
      rule_autograd kernels K;
      rule_fallback dispatcher K ]
    (missing_marker K).

(** The invariants the entry asserts on its kernel map: no list for
    [Undefined], no empty list, and a valid kernel at every front. *)
Definition kernels_ok (kernels : gmap Z AnnotatedKernelContainer) : bool :=
  bool_decide (kernels !! DispatchKey.Undefined = None)
  && forallb (fun kv => match snd kv with
                        | [] => false
                        | front :: _ => KernelFunction.isValid (kernel (snd front))
                        end)
             (map_to_list kernels).

(** The key has a slot in the fallback table of the dispatcher. *)
Definition fallback_slot_ok (dispatcher : Dispatcher) (K : DispatchKey) : bool :=
  let ix := getDispatchTableIndexForDispatchKey K in
  (ix <? 0) || (ix <? Z.of_nat (length (backendFallbackKernels_ dispatcher))).

End Precedence.

(** ** Sequences of calls on one entry *)

Section Calls.
Context `{KS : KeySets}.

(** The mutating member functions, with their arguments. *)
Inductive Call : Type :=
  | call_registerSchema (sch : FunctionSchema) (dbg : string) (tags : list Tag)
  | call_deregisterSchema
  | call_registerKernel (dispatch_key : option DispatchKey) (kernel : KernelFunction)
      (cpp_signature : option CppSignature) (inferred_function_schema : option FunctionSchema)
      (debug : string)
  | call_deregisterKernel (dispatch_key : option DispatchKey)
      (kernel : AnnotatedKernelContainerIterator)
  | call_updateFallback (dispatch_key : DispatchKey).

(** The state a call leaves behind, whether it returns or throws. *)
Definition perform (dispatcher : Dispatcher) (c : Call) (e : OperatorEntry) : OperatorEntry :=
  match c with
  | call_registerSchema sch dbg tags => snd (registerSchema sch dbg tags e)
  | call_deregisterSchema => snd (deregisterSchema e)
  | call_registerKernel dk k sig inferred dbg =>
      snd (registerKernel dispatcher dk k sig inferred dbg e)
  | call_deregisterKernel dk it => snd (deregisterKernel_ dispatcher dk it e)
  | call_updateFallback dk => snd (updateFallback dispatcher dk e)
  end.

Definition perform_all (dispatcher : Dispatcher) (cs : list Call) (e : OperatorEntry)
    : OperatorEntry :=
  foldl (fun e c => perform dispatcher c e) e cs.

(** The states an entry can be in: the one its constructor leaves, and the
    ones calls lead to from there. *)
Definition reachable (dispatcher : Dispatcher) (e : OperatorEntry) : Prop :=
  exists (name : OperatorName) (cs : list Call),
    e = perform_all dispatcher cs (snd (OperatorEntry_new dispatcher name)).

(** The table a full recomputation gives at a key, and the live slot. *)
Definition live_slot (e : OperatorEntry) (K : DispatchKey) : option KernelFunction :=
  dispatchTable_ e !! Z.to_nat (getDispatchTableIndexForDispatchKey K).

Definition table_in_sync (dispatcher : Dispatcher) (e : OperatorEntry) : Prop :=
  forall K, K = DispatchKey.Undefined \/ K ∈ keys_of FULL ->
    Some (kernel (fst (precedence (kernels_ e) dispatcher K))) = live_slot e K.

End Calls.

(** ** What a table update leaves alone *)

(** Two states with the same name, schema, kernel map and recorded
    signature: they differ in the dispatch table at most. *)
Definition same_registry (e e' : OperatorEntry) : Prop :=
  name_ e' = name_ e /\ schema_ e' = schema_ e /\ kernels_ e' = kernels_ e
  /\ cpp_signature_ e' = cpp_signature_ e /\ tags_ e' = tags_ e.

Definition table_only {A : Type} (m : M A) : Prop :=
  forall e, same_registry e (snd (m e)).

(** A member function keeps a property of the state, whether it returns
    or throws. *)
Definition keeps {A : Type} (P : OperatorEntry -> Prop) (m : M A) : Prop :=
  forall e, P e -> P (snd (m e)).

(** Some registered kernel has an inferred schema that differs from [sch]. *)
Definition disagrees_with_a_kernel `{KS : KeySets} (sch : FunctionSchema) (e : OperatorEntry)
    : Prop :=
  exists (k : DispatchKey) (l : AnnotatedKernelContainer) (n : AnnotatedKernelContainerIterator)
         (j : AnnotatedKernel) (inferred : FunctionSchema),
    kernels_ e !! k = Some l /\ (n, j) ∈ l
    /\ inferred_function_schema j = Some inferred
    /\ findSchemaDifferences sch inferred <> None.

(** The signature [rec] is the recorded one. *)
Definition signature_recorded (rec : CppSignatureWithDebug) (e : OperatorEntry) : Prop :=
  cpp_signature_ e = Some rec.

(** No key of the kernel map has an empty list. *)
Definition no_empty_list (e : OperatorEntry) : Prop :=
  forall k l, kernels_ e !! k = Some l -> l <> [].

(** No list is registered for [Undefined]. *)
Definition no_undefined (e : OperatorEntry) : Prop :=
  kernels_ e !! DispatchKey.Undefined = None.

(** A call that does not name [Undefined] as the key of a registration. *)
Definition key_defined (c : Call) : Prop :=
  match c with
  | call_registerKernel (Some k) _ _ _ _ => k <> DispatchKey.Undefined
  | _ => True
  end.

(** ** The keys a table update visits *)

Section UpdateTrace.
Context `{KS : KeySets}.

(** The keys whose slots [updateDispatchTable_] synchronizes for a key, in
    the order it visits them: the runtime keys of the key, [Undefined] after
    a composite alias, the autograd key of the backend after a backend key. *)
Definition associated_keys (dispatch_key : DispatchKey) : list DispatchKey :=
  if dispatch_key =? DispatchKey.Undefined then [dispatch_key]
  else
    keys_of (getRuntimeDispatchKeySet dispatch_key)
    ++ (if (dispatch_key =? DispatchKey.CompositeImplicitAutograd)
           || (dispatch_key =? DispatchKey.CompositeExplicitAutograd)
           || (dispatch_key =? DispatchKey.CompositeExplicitAutogradNonFunctional)
        then [DispatchKey.Undefined] else [])
    ++ (if isBackendDispatchKey dispatch_key
        then [getAutogradKeyFromBackend (toBackendComponent dispatch_key)] else []).

(** The keys [updateDispatchTableFull_] visits. *)
Definition associated_keys_full : list DispatchKey :=
  associated_keys DispatchKey.Undefined ++ concat (map associated_keys (keys_of FULL)).

(** No two keys of the list share a slot of the table. *)
Definition index_injective_on (ks : list DispatchKey) : bool :=
  forallb (fun k1 =>
             forallb (fun k2 =>
                        implb (getDispatchTableIndexForDispatchKey k1
                               =? getDispatchTableIndexForDispatchKey k2) (k1 =? k2)) ks) ks.

(** Every key of the list has a slot, inside the table of the entry and
    inside the fallback table of the dispatcher. *)
Definition slots_ok (dispatcher : Dispatcher) (e : OperatorEntry) (ks : list DispatchKey)
    : bool :=
  forallb (fun k =>
             let ix := getDispatchTableIndexForDispatchKey k in
             (0 <=? ix) && (ix <? Z.of_nat (length (dispatchTable_ e)))
             && (ix <? Z.of_nat (length (backendFallbackKernels_ dispatcher)))) ks.

(** The keys a registration synchronizes: those of its key, or all of them
    for a registration without key. *)
Definition keys_updated_by_register (dispatch_key : option DispatchKey) : list DispatchKey :=
  match dispatch_key with
  | Some k => associated_keys k
  | None => associated_keys_full
  end.



End UpdateTrace.
(** The key whose list a call can change. *)
Definition call_target (c : Call) : option DispatchKey :=
  match c with
  | call_registerKernel dk _ _ _ _ => Some (target_key dk)
  | call_deregisterKernel dk _ => Some (target_key dk)
  | _ => None
  end.

(** The iterators of every list of the kernel map are distinct. *)
Definition iterators_distinct (e : OperatorEntry) : Prop :=
  forall k l, kernels_ e !! k = Some l -> NoDup (map fst l).

Section Decided.
Context `{KS : KeySets}.

(** What the registrations alone decide for a key: the first applicable of
    the rules that come before the backend fallback, if any. *)
Definition decided_by_registrations (kernels : gmap Z AnnotatedKernelContainer)
    (K : DispatchKey) : option (AnnotatedKernel * string) :=
  first_applicable
    [ Some <$> rule_direct kernels K;
      Some <$> rule_explicit_nonfunctional kernels K;
      Some <$> rule_explicit kernels K;
      Some <$> rule_ambiguous kernels K;
      Some <$> rule_implicit kernels K;
      Some <$> rule_autograd kernels K ]
    None.

End Decided.

(** ** The listings of an entry *)

Section Dumps.
Context `{KS : KeySets}.

(** The name of a dispatch key, [toString] of c10; a stream is the string
    written so far. *)
Variable toString : DispatchKey -> string.

Definition newline : string := String (Ascii.ascii_of_nat 10) EmptyString.

Fixpoint listAllDispatchKeys_loop (e : OperatorEntry) (ks : list DispatchKey)
    (has_kernels : bool) (str : string) : Result string :=
  match ks with
  | [] => Ok str
  | k :: ks' =>
      let iter := getDispatchTableIndexForDispatchKey k in
      if iter =? -1 then listAllDispatchKeys_loop e ks' has_kernels str
      else if iter <? 0 then Err OutOfBounds
      else
        match dispatchTable_ e !! Z.to_nat iter with
        | None => Err OutOfBounds
        | Some slot =>
            if negb (KernelFunction.isValid slot)
            then listAllDispatchKeys_loop e ks' has_kernels str
            else
              let str := if has_kernels then (str ++ ", ")%string else str in
              let str := (str ++ toString (to_uint16 iter))%string in
              listAllDispatchKeys_loop e ks' true str
        end
  end.

Definition listAllDispatchKeys (e : OperatorEntry) : Result string :=
  str <-? listAllDispatchKeys_loop e (keys_of FULL) false "[";
  Ok (str ++ "]")%string.

Fixpoint dumpComputedTable_loop (dispatcher : Dispatcher) (e : OperatorEntry)
    (runtime_keys : list DispatchKey) (oss : string) : Result string :=
  match runtime_keys with
  | [] => Ok oss
  | k :: ks' =>
      kernel_prov <-? computeDispatchTableEntryWithDebug e dispatcher k;
      if KernelFunction.isValid (kernel (fst kernel_prov))
      then dumpComputedTable_loop dispatcher e ks'
             (oss ++ toString k ++ ": "
                  ++ (if KernelFunction.isFallthrough (kernel (fst kernel_prov))
                      then "fallthrough " else "")
                  ++ debug (fst kernel_prov) ++ " [" ++ snd kernel_prov ++ "]" ++ newline)%string
      else dumpComputedTable_loop dispatcher e ks' oss
  end.

Definition dumpComputedTable (dispatcher : Dispatcher) (e : OperatorEntry) : Result string :=
  dumpComputedTable_loop dispatcher e (DispatchKey.Undefined :: keys_of FULL) "".

(** The keys [listAllDispatchKeys] prints: those with a slot that holds a
    valid kernel. *)
Definition has_valid_slot (e : OperatorEntry) (k : DispatchKey) : bool :=
  negb (getDispatchTableIndexForDispatchKey k =? -1)
  && match dispatchTable_ e !! Z.to_nat (getDispatchTableIndexForDispatchKey k) with
     | Some slot => KernelFunction.isValid slot
     | None => false
     end.

(** Every key of the list is without slot or has its slot in the table. *)
Definition slots_in_table (e : OperatorEntry) (ks : list DispatchKey) : bool :=
  forallb (fun k =>
             let ix := getDispatchTableIndexForDispatchKey k in
             (ix =? -1) || ((0 <=? ix) && (ix <? Z.of_nat (length (dispatchTable_ e))))) ks.

(** The line of a key in the computed table. *)
Definition table_line (k : DispatchKey) (r : AnnotatedKernel * string) : string :=
  (toString k ++ ": "
     ++ (if KernelFunction.isFallthrough (kernel (fst r)) then "fallthrough " else "")
     ++ debug (fst r) ++ " [" ++ snd r ++ "]" ++ newline)%string.

End Dumps.

(** ** A dispatcher and some entries to run the code on *)

Module Scenario.

(** A dispatcher with no backend fallback registered. *)
Definition dispatcher : Dispatcher :=
  mkDispatcher (replicate (Z.to_nat num_runtime_entries) missingKernel).

(** Kernels built from distinct boxed functions. *)
Definition K_math : KernelFunction := KernelFunction.makeFromBoxed (fn_at 1).
Definition K_explicit : KernelFunction := KernelFunction.makeFromBoxed (fn_at 2).
Definition K_cpu : KernelFunction := KernelFunction.makeFromBoxed (fn_at 3).
Definition K_fpga : KernelFunction := KernelFunction.makeFromBoxed (fn_at 4).
Definition K_autograd_other : KernelFunction := KernelFunction.makeFromBoxed (fn_at 5).
Definition K_nonfunctional : KernelFunction := KernelFunction.makeFromBoxed (fn_at 6).

Definition register (dk : DispatchKey) (k : KernelFunction) (dbg : string) : Call :=
  call_registerKernel (Some dk) k None None dbg.

(** The entry its constructor leaves. *)
Definition fresh : OperatorEntry := snd (OperatorEntry_new dispatcher "aten::op").

(** A composite kernel alone. *)
Definition composite : OperatorEntry :=
  perform_all dispatcher [register DispatchKey.CompositeImplicitAutograd K_math "math"] fresh.

(** A composite kernel, then a [CPU] kernel. *)
Definition composite_cpu : OperatorEntry :=
  perform_all dispatcher [register DispatchKey.CPU K_cpu "cpu"] composite.

(** A composite kernel, then an explicit-backend kernel. *)
Definition composite_explicit : OperatorEntry :=
  perform_all dispatcher
    [register DispatchKey.CompositeExplicitAutograd K_explicit "explicit"] composite.

(** A composite kernel, then a non-functional explicit-backend kernel. *)
Definition composite_nonfunctional : OperatorEntry :=
  perform_all dispatcher
    [register DispatchKey.CompositeExplicitAutogradNonFunctional K_nonfunctional
       "nonfunctional"] composite.

(** A composite kernel, then an [FPGA] kernel. *)
Definition composite_fpga : OperatorEntry :=
  perform_all dispatcher [register DispatchKey.FPGA K_fpga "fpga"] composite.

(** A composite kernel, an [FPGA] kernel and a kernel registered to
    [AutogradOther] itself. *)
Definition composite_fpga_autogradother : OperatorEntry :=
  perform_all dispatcher
    [register DispatchKey.AutogradOther K_autograd_other "autograd_other"] composite_fpga.

(** A registration whose key is [Undefined], on the fresh entry. *)
Definition undefined_key : OperatorEntry :=
  perform_all dispatcher [register DispatchKey.Undefined K_cpu "undefined"] fresh.

Definition schema_a : FunctionSchema := mkFunctionSchema "aten::op" "(Tensor a) -> Tensor".
Definition schema_b : FunctionSchema := mkFunctionSchema "aten::op" "(Tensor a, Tensor b) -> Tensor".

(** A kernel with the inferred schema [schema_a], then the schema
    [schema_a] declared. *)
Definition with_schema : OperatorEntry :=
  perform_all dispatcher
    [call_registerKernel (Some DispatchKey.CPU) K_cpu (Some "Tensor (Tensor)"%string)
       (Some schema_a) "cpu";
     call_registerSchema schema_a "def" []] fresh.

End Scenario.

(** * Properties *)

(** ** The key algebra *)

Lemma static_asserts :
  to_uint8 BackendComponent.EndOfBackendKeys + to_uint8 DispatchKey.EndOfFunctionalityKeys <= 64
  /\ to_uint8 BackendComponent.EndOfBackendKeys <= 16.
Proof. vm_compute. split; discriminate. Qed.

Lemma num_runtime_entries_eq : num_runtime_entries = 105.
Proof. reflexivity. Qed.

Ltac unfold_keys :=
  unfold toRuntimePerBackendFunctionalityKey, toFunctionalityKey, toBackendComponent,
    to_uint8, to_uint16, is_uint16,
    DispatchKey.EndOfFunctionalityKeys, DispatchKey.EndOfRuntimeBackendKeys,
    DispatchKey.StartOfDenseBackends, DispatchKey.EndOfDenseBackends,
    DispatchKey.StartOfQuantizedBackends, DispatchKey.EndOfQuantizedBackends,
    DispatchKey.StartOfSparseBackends, DispatchKey.EndOfSparseBackends,
    DispatchKey.StartOfNestedTensorBackends, DispatchKey.EndOfNestedTensorBackends,
    DispatchKey.StartOfAutogradBackends, DispatchKey.EndOfAutogradBackends,
    DispatchKey._QuantizedPrivateUse3, DispatchKey._SparsePrivateUse3,
    DispatchKey._NestedTensorPrivateUse3, DispatchKey.AutogradPrivateUse3,
    DispatchKey.PrivateUse3, DispatchKey.Dense, DispatchKey.Quantized, DispatchKey.Sparse,
    DispatchKey.NestedTensor, DispatchKey.AutogradFunctionality, DispatchKey.Undefined,
    BackendComponent.InvalidBit, BackendComponent.EndOfBackendKeys,
    BackendComponent.PrivateUse3Bit in *.

Ltac case_leb :=
  repeat match goal with
         | |- context [?a <=? ?b] => destruct (Z.leb_spec a b); simpl
         | |- context [?a =? ?b] => destruct (Z.eqb_spec a b); simpl
         end.

(** The three functions stay inside the enumerations. *)
Lemma toBackendComponent_range (k : DispatchKey) :
  is_uint16 k -> 0 <= toBackendComponent k <= BackendComponent.EndOfBackendKeys.
Proof.
  unfold_keys. intros Hk. case_leb; Z.to_euclidean_division_equations; lia.
Qed.

Lemma toFunctionalityKey_range (k : DispatchKey) :
  is_uint16 k -> 0 <= toFunctionalityKey k <= DispatchKey.EndOfFunctionalityKeys.
Proof.
  unfold_keys. intros Hk. case_leb; lia.
Qed.

Lemma toRuntimePerBackendFunctionalityKey_range (f : DispatchKey) (b : BackendComponent) :
  is_uint16 (toRuntimePerBackendFunctionalityKey f b).
Proof.
  unfold_keys. case_leb; try lia; apply Z.mod_pos_bound; lia.
Qed.

(** C8. Every key [k] of the five per-backend ranges is recovered from its
    functionality [toFunctionalityKey k] and its backend
    [toBackendComponent k] by [toRuntimePerBackendFunctionalityKey]; and on
    every 16-bit key the three functions return a value of their result
    enumeration. *)
Theorem per_backend_key_roundtrip (k : DispatchKey) :
  is_uint16 k ->
  (0 <= toBackendComponent k <= BackendComponent.EndOfBackendKeys)
  /\ (0 <= toFunctionalityKey k <= DispatchKey.EndOfFunctionalityKeys)
  /\ is_uint16 (toRuntimePerBackendFunctionalityKey (toFunctionalityKey k) (toBackendComponent k))
  /\ (DispatchKey.StartOfDenseBackends <= k <= DispatchKey.EndOfRuntimeBackendKeys ->
      isPerBackendFunctionalityKey (toFunctionalityKey k) = true
      /\ toRuntimePerBackendFunctionalityKey (toFunctionalityKey k) (toBackendComponent k) = k).
Proof.
  intros Hk.
  split; [by apply toBackendComponent_range|].
  split; [by apply toFunctionalityKey_range|].
  split; [apply toRuntimePerBackendFunctionalityKey_range|].
  revert Hk. unfold isPerBackendFunctionalityKey. unfold_keys. intros Hk Hr.
  assert (Hcases : 41 <= k <= 55 \/ 56 <= k <= 70 \/ 71 <= k <= 85
                   \/ 86 <= k <= 100 \/ 101 <= k <= 115) by lia.
  destruct Hcases as [H|[H|[H|[H|H]]]];
    repeat match goal with
           | |- context [?a <=? ?b] =>
               first [ rewrite (proj2 (Z.leb_le a b)) by lia
                     | rewrite (proj2 (Z.leb_gt a b)) by lia ]
           end; simpl; (split; [reflexivity|]);
    Z.to_euclidean_division_equations; lia.
Qed.

Lemma per_backend_key_roundtrip_witness :
  is_uint16 DispatchKey.SparseCUDA
  /\ toBackendComponent DispatchKey.SparseCUDA = BackendComponent.CUDABit
  /\ toFunctionalityKey DispatchKey.SparseCUDA = DispatchKey.Sparse
  /\ toRuntimePerBackendFunctionalityKey DispatchKey.Sparse BackendComponent.CUDABit
     = DispatchKey.SparseCUDA.
Proof.
  assert (Hk : is_uint16 DispatchKey.SparseCUDA)
    by (unfold is_uint16, DispatchKey.SparseCUDA; lia).
  split; [exact Hk|].
  split; [reflexivity|]. split; [reflexivity|].
  apply (per_backend_key_roundtrip DispatchKey.SparseCUDA Hk).
  unfold DispatchKey.SparseCUDA, DispatchKey.StartOfDenseBackends,
    DispatchKey.EndOfRuntimeBackendKeys, DispatchKey.EndOfAutogradBackends,
    DispatchKey.AutogradPrivateUse3.
  lia.
Defined.

(** ** The precedence algorithm *)

Section PrecedenceProofs.
Context `{KS : KeySets}.

Lemma getKernelForDispatchKey_Ok e k x :
  getKernelForDispatchKey e k = Ok x -> x = active (kernels_ e) k.
Proof.
  unfold getKernelForDispatchKey, active.
  destruct (kernels_ e !! k) as [[|front l]|]; try discriminate.
  - destruct (KernelFunction.isValid _); congruence.
  - congruence.
Qed.

Lemma hasKernelForAnyDispatchKey_Ok e ks b :
  hasKernelForAnyDispatchKey e ks = Ok b -> b = registered_in (kernels_ e) ks.
Proof.
  unfold hasKernelForAnyDispatchKey, registered_in. case_bool_decide; congruence.
Qed.

Lemma existsb_key_registered_at (kernels : gmap Z AnnotatedKernelContainer) k :
  existsb (fun kv => k =? fst kv) (map_to_list kernels) = registered_at kernels k.
Proof.
  unfold registered_at. apply eq_true_iff_eq. rewrite existsb_exists, bool_decide_eq_true.
  split.
  - intros [[k' l] [Hin Hk]]. simpl in Hk. apply Z.eqb_eq in Hk. subst k'.
    apply list_elem_of_In, elem_of_map_to_list in Hin. by exists l.
  - intros [l Hl]. exists (k, l). split; [|simpl; apply Z.eqb_refl].
    by apply list_elem_of_In, elem_of_map_to_list.
Qed.

Lemma hasKernelForDispatchKey_Ok e k b :
  hasKernelForDispatchKey e k = Ok b -> b = registered_at (kernels_ e) k.
Proof.
  unfold hasKernelForDispatchKey. rewrite existsb_key_registered_at.
  case_bool_decide; congruence.
Qed.


Lemma rule_direct_Ok e K x :
  getKernelForDispatchKey e K = Ok x -> rule_direct (kernels_ e) K = labelled "kernel" x.
Proof. intros ->%getKernelForDispatchKey_Ok. reflexivity. Qed.

Lemma alias_registration_Ok e c alias x :
  alias_registration e c alias = Ok x ->
  x = if c then active (kernels_ e) alias else None.
Proof.
  unfold alias_registration. destruct c; [apply getKernelForDispatchKey_Ok | congruence].
Qed.

Lemma has_backend_kernel_Ok e K b :
  orelse (hasKernelForAnyDispatchKey e (getBackendKeySetFromAutograd K))
         (hasKernelForDispatchKey e DispatchKey.CompositeExplicitAutograd) = Ok b ->
  b = has_backend_kernel (kernels_ e) K.
Proof.
  unfold orelse, Result_bind, has_backend_kernel.
  destruct (hasKernelForAnyDispatchKey _ _) as [b1|] eqn:E1; [|discriminate].
  apply hasKernelForAnyDispatchKey_Ok in E1. rewrite <- E1.
  destruct b1; simpl; [by intros [= <-]|]. apply hasKernelForDispatchKey_Ok.
Qed.

Lemma andalso_Ok e c ks b :
  andalso c (hasKernelForAnyDispatchKey e ks) = Ok b -> b = c && registered_in (kernels_ e) ks.
Proof.
  unfold andalso. destruct c; simpl; [apply hasKernelForAnyDispatchKey_Ok | congruence].
Qed.

Lemma labelled_if (c : bool) l (a : option AnnotatedKernel) :
  (if c then labelled l a else None) = labelled l (if c then a else None).
Proof. by destruct c. Qed.

Lemma computeDispatchTableEntryWithDebug_sound e d K r :
  computeDispatchTableEntryWithDebug e d K = Ok r -> r = precedence (kernels_ e) d K.
Proof.
  unfold computeDispatchTableEntryWithDebug, precedence, Result_bind.
  intros H.
  (* rule 1 *)
  destruct (getKernelForDispatchKey e K) as [x1|] eqn:E1; [|discriminate].
  rewrite (rule_direct_Ok _ _ _ E1).
  destruct x1 as [a|]; simpl; [congruence|].
  (* rule 2 *)
  destruct (alias_registration e _ DispatchKey.CompositeExplicitAutogradNonFunctional)
    as [x2|] eqn:E2; [|discriminate].
  apply alias_registration_Ok in E2.
  unfold rule_explicit_nonfunctional, alias_applies. rewrite labelled_if, <- E2.
  destruct x2 as [a|]; simpl; [congruence|]. clear E2.
  (* rule 3 *)
  destruct (alias_registration e _ DispatchKey.CompositeExplicitAutograd)
    as [x3|] eqn:E3; [|discriminate].
  apply alias_registration_Ok in E3.
  unfold rule_explicit, alias_applies. rewrite labelled_if, <- E3.
  destruct x3 as [a|]; simpl; [congruence|]. clear E3.
  (* rule 4 *)
  destruct (orelse _ _) as [hbk|] eqn:E4; [|discriminate].
  apply has_backend_kernel_Ok in E4.
  destruct (alias_registration e _ DispatchKey.CompositeImplicitAutograd)
    as [x4|] eqn:E5; [|discriminate].
  apply alias_registration_Ok in E5.
  unfold rule_ambiguous, rule_implicit, alias_applies. rewrite <- E4. clear E4.
  set (c4 := (K =? DispatchKey.Undefined) || isIncludedInAlias K _) in *.
  set (m4 := active (kernels_ e) DispatchKey.CompositeImplicitAutograd) in *.
  assert (H4 : exists x, match x4 with
                    | Some m =>
                        match andalso (K =? DispatchKey.AutogradOther)
                                (hasKernelForAnyDispatchKey e autogradother_backends) with
                        | Ok true => Ok (Some (ambiguousAutogradOtherKernel,
                                               "ambiguous autogradother"%string))
                        | Ok false => if negb hbk then Ok (Some (m, "math kernel"%string))
                                      else Ok None
                        | Err x => Err x
                        end
                    | None => Ok None
                    end = Ok x
            /\ x = match (if c4 && bool_decide (is_Some m4) && (K =? DispatchKey.AutogradOther)
                             && registered_in (kernels_ e) autogradother_backends
                          then Some (ambiguousAutogradOtherKernel, "ambiguous autogradother"%string)
                          else None) with
                   | Some a => Some a
                   | None => if c4 && negb hbk then labelled "math kernel" m4 else None
                   end).
  { subst x4. destruct c4; simpl.
    - destruct m4 as [m|]; simpl.
      + destruct (andalso _ _) as [amb|] eqn:E6; [|discriminate].
        apply andalso_Ok in E6. rewrite <- E6.
        destruct amb; [by eexists|]. destruct (negb hbk); by eexists.
      + eexists; split; [reflexivity|]. by destruct (negb hbk).
    - by eexists. }
  destruct H4 as (x & Hx & ->). rewrite Hx in H. clear Hx E5.
  destruct (if c4 && _ && _ && _ then _ else _) as [a|]; [congruence|].
  destruct (if c4 && negb hbk then _ else _) as [a|]; [congruence|].
  (* rule 5 *)
  destruct (alias_registration e _ DispatchKey.Autograd) as [x5|] eqn:E7; [|discriminate].
  apply alias_registration_Ok in E7.
  unfold rule_autograd. rewrite labelled_if, <- E7.
  destruct x5 as [a|]; simpl; [congruence|]. clear E7.
  (* rules 6 and 7 *)
  unfold rule_fallback, missing_marker.
  destruct (getDispatchTableIndexForDispatchKey K <? 0); [congruence|].
  destruct (backendFallbackKernels_ d !! _) as [fb|]; [|discriminate].
  destruct (KernelFunction.isValid (kernel fb)); congruence.
Qed.

Lemma kernels_ok_lookup (kernels : gmap Z AnnotatedKernelContainer) k l :
  kernels_ok kernels = true -> kernels !! k = Some l ->
  exists front l', l = front :: l' /\ KernelFunction.isValid (kernel (snd front)) = true.
Proof.
  unfold kernels_ok. rewrite andb_true_iff, forallb_forall. intros [_ Hall] Hl.
  specialize (Hall (k, l)). simpl in Hall.
  destruct l as [|front l'].
  - exfalso. apply Bool.diff_false_true, Hall, list_elem_of_In. by apply elem_of_map_to_list.
  - exists front, l'. split; [done|]. apply Hall, list_elem_of_In. by apply elem_of_map_to_list.
Qed.

Lemma getKernelForDispatchKey_total e k :
  kernels_ok (kernels_ e) = true ->
  getKernelForDispatchKey e k = Ok (active (kernels_ e) k).
Proof.
  intros Hok. unfold getKernelForDispatchKey, active.
  destruct (kernels_ e !! k) as [l|] eqn:El; [|done].
  destruct (kernels_ok_lookup _ _ _ Hok El) as (front & l' & -> & Hv). by rewrite Hv.
Qed.

Lemma hasKernelForAnyDispatchKey_total e ks :
  kernels_ok (kernels_ e) = true ->
  hasKernelForAnyDispatchKey e ks = Ok (registered_in (kernels_ e) ks).
Proof.
  unfold kernels_ok, hasKernelForAnyDispatchKey. rewrite andb_true_iff.
  intros [Hu _]. by rewrite Hu.
Qed.

Lemma hasKernelForDispatchKey_total e k :
  kernels_ok (kernels_ e) = true ->
  hasKernelForDispatchKey e k = Ok (registered_at (kernels_ e) k).
Proof.
  unfold kernels_ok, hasKernelForDispatchKey. rewrite andb_true_iff.
  intros [Hu _]. by rewrite Hu, existsb_key_registered_at.
Qed.

Lemma computeDispatchTableEntryWithDebug_total e d K :
  kernels_ok (kernels_ e) = true -> fallback_slot_ok d K = true ->
  computeDispatchTableEntryWithDebug e d K = Ok (precedence (kernels_ e) d K).
Proof.
  intros Hok Hslot.
  assert (Hex : exists r, computeDispatchTableEntryWithDebug e d K = Ok r).
  { unfold computeDispatchTableEntryWithDebug, alias_registration, orelse, andalso, Result_bind.
    rewrite !(getKernelForDispatchKey_total _ _ Hok), !(hasKernelForAnyDispatchKey_total _ _ Hok),
      !(hasKernelForDispatchKey_total _ _ Hok).
    unfold fallback_slot_ok in Hslot.
    destruct (getDispatchTableIndexForDispatchKey K <? 0) eqn:Eix.
    - repeat (case_match; simplify_eq; eauto).
    - simpl in Hslot. apply Z.ltb_lt in Hslot. apply Z.ltb_ge in Eix.
      destruct (lookup_lt_is_Some_2 (backendFallbackKernels_ d)
                  (Z.to_nat (getDispatchTableIndexForDispatchKey K))) as [fb Hfb]; [lia|].
      rewrite Hfb.
      repeat (case_match; simplify_eq; eauto). }
  destruct Hex as [r Hr]. rewrite Hr. f_equal.
  by apply computeDispatchTableEntryWithDebug_sound.
Qed.


(** The computation reads the kernel map of the entry and nothing else of it. *)
Lemma computeDispatchTableEntryWithDebug_kernels_only e e' d K :
  kernels_ e' = kernels_ e ->
  computeDispatchTableEntryWithDebug e' d K = computeDispatchTableEntryWithDebug e d K.
Proof.
  intros Hk.
  unfold computeDispatchTableEntryWithDebug, alias_registration, orelse, andalso,
    getKernelForDispatchKey, hasKernelForAnyDispatchKey, hasKernelForDispatchKey.
  by rewrite Hk.
Qed.

(** C1. For every key [K], what [computeDispatchTableEntryWithDebug]
    returns is the first applicable of the rules in their order (direct
    kernel, the two explicit-backend aliases, the implicit-backend alias with
    its two exceptions, the autograd alias, the backend fallback, else the
    missing marker): whenever it returns, and it does return on every entry
    that satisfies the asserted invariants. That result is a function of the
    kernel map and of the fallback table alone, so two entries with the same
    kernel map get the same answer however they came to it. *)
Theorem computeDispatchTableEntry_precedence e d K :
  (forall r, computeDispatchTableEntryWithDebug e d K = Ok r ->
             r = precedence (kernels_ e) d K)
  /\ (kernels_ok (kernels_ e) = true -> fallback_slot_ok d K = true ->
      computeDispatchTableEntryWithDebug e d K = Ok (precedence (kernels_ e) d K)
      /\ computeDispatchTableEntry e d K = Ok (kernel (fst (precedence (kernels_ e) d K))))
  /\ (forall e', kernels_ e' = kernels_ e ->
      computeDispatchTableEntryWithDebug e' d K = computeDispatchTableEntryWithDebug e d K).
Proof.
  split; [intros r; apply computeDispatchTableEntryWithDebug_sound|].
  split; [|intros e'; apply computeDispatchTableEntryWithDebug_kernels_only].
  intros Hok Hslot. unfold computeDispatchTableEntry.
  by rewrite (computeDispatchTableEntryWithDebug_total _ _ _ Hok Hslot).
Qed.

(** C3, amended. When a [CompositeImplicitAutograd] kernel is registered,
    some backend of [autogradother_backends] has a direct kernel, and none
    of the earlier rules applies to [AutogradOther] (no kernel registered to
    [AutogradOther] itself, no explicit-backend alias kernel that covers
    it), the entry computed for [AutogradOther] is the ambiguous marker. *)
Theorem ambiguous_autogradother e d m :
  kernels_ok (kernels_ e) = true ->
  isIncludedInAlias DispatchKey.AutogradOther DispatchKey.CompositeImplicitAutograd = true ->
  active (kernels_ e) DispatchKey.CompositeImplicitAutograd = Some m ->
  registered_in (kernels_ e) autogradother_backends = true ->
  rule_direct (kernels_ e) DispatchKey.AutogradOther = None ->
  rule_explicit_nonfunctional (kernels_ e) DispatchKey.AutogradOther = None ->
  rule_explicit (kernels_ e) DispatchKey.AutogradOther = None ->
  computeDispatchTableEntryWithDebug e d DispatchKey.AutogradOther
  = Ok (ambiguousAutogradOtherKernel, "ambiguous autogradother"%string).
Proof.
  intros Hok Hin Hm Hany H1 H2 H3.
  assert (Hex : exists r, computeDispatchTableEntryWithDebug e d DispatchKey.AutogradOther = Ok r).
  { unfold computeDispatchTableEntryWithDebug, alias_registration, orelse, andalso, Result_bind.
    rewrite !(getKernelForDispatchKey_total _ _ Hok),
      !(hasKernelForAnyDispatchKey_total _ _ Hok), !(hasKernelForDispatchKey_total _ _ Hok).
    rewrite Hin, Hm, Hany, orb_true_r, Z.eqb_refl.
    repeat (case_match; simplify_eq; eauto). }
  destruct Hex as [r Hr]. rewrite Hr. f_equal.
  apply computeDispatchTableEntryWithDebug_sound in Hr. subst r.
  unfold precedence. rewrite H1, H2, H3. simpl.
  unfold rule_ambiguous, alias_applies.
  rewrite Hin, Hm, Hany, orb_true_r, Z.eqb_refl.
  by rewrite bool_decide_eq_true_2 by eauto.
Qed.

(** The implicit-backend rule gives nothing when the backend-kernel
    exception holds. *)
Lemma rule_implicit_skipped kernels K :
  has_backend_kernel kernels K = true -> rule_implicit kernels K = None.
Proof. unfold rule_implicit. intros ->. by rewrite andb_false_r. Qed.

(** C4, amended. The [CompositeImplicitAutograd] kernel is skipped, and the
    entry is the first applicable of the remaining rules, whenever a key of
    the backend key set of [K] has a direct kernel or a
    [CompositeExplicitAutograd] kernel is registered; a
    [CompositeExplicitAutogradNonFunctional] kernel does not make it
    skipped. *)
Theorem composite_implicit_skipped e d K :
  kernels_ok (kernels_ e) = true -> fallback_slot_ok d K = true ->
  registered_in (kernels_ e) (getBackendKeySetFromAutograd K) = true
  \/ registered_at (kernels_ e) DispatchKey.CompositeExplicitAutograd = true ->
  computeDispatchTableEntryWithDebug e d K
  = Ok (precedence_skipping_implicit (kernels_ e) d K)
  /\ snd (precedence_skipping_implicit (kernels_ e) d K) <> "math kernel"%string.
Proof.
  intros Hok Hslot Hb.
  assert (Hbk : has_backend_kernel (kernels_ e) K = true).
  { unfold has_backend_kernel. destruct Hb as [-> | ->]; [done | by rewrite orb_true_r]. }
  rewrite (computeDispatchTableEntryWithDebug_total _ _ _ Hok Hslot).
  unfold precedence, precedence_skipping_implicit.
  rewrite (rule_implicit_skipped _ _ Hbk). split; [reflexivity|].
  unfold rule_direct, rule_explicit_nonfunctional, rule_explicit, rule_ambiguous,
    rule_autograd, rule_fallback, missing_marker, labelled.
  simpl. repeat (case_match; simplify_eq; simpl; try discriminate).
Qed.

End PrecedenceProofs.

(** ** The registry under registration and deregistration *)

Section RegistryProofs.
Context `{KS : KeySets}.

Lemma same_registry_refl e : same_registry e e.
Proof. by repeat split. Qed.

Lemma same_registry_trans e1 e2 e3 :
  same_registry e1 e2 -> same_registry e2 e3 -> same_registry e1 e3.
Proof.
  intros (?&?&?&?&?) (?&?&?&?&?). repeat split; congruence.
Qed.

Lemma table_only_ret {A} (a : A) : table_only (ret a).
Proof. intros e. apply same_registry_refl. Qed.

Lemma table_only_bind {A B} (m : M A) (f : A -> M B) :
  table_only m -> (forall a, table_only (f a)) -> table_only (bind m f).
Proof.
  intros Hm Hf e. unfold bind. specialize (Hm e).
  destruct (m e) as [[a|x] e']; simpl in *; [|done].
  eapply same_registry_trans; [exact Hm | apply Hf].
Qed.

Lemma table_only_for_each {A} (l : list A) (body : A -> M unit) :
  (forall a, table_only (body a)) -> table_only (for_each l body).
Proof.
  intros Hb. induction l as [|a l IH]; simpl.
  - apply table_only_ret.
  - apply table_only_bind; [apply Hb | intros _; exact IH].
Qed.

Lemma table_only_updateDispatchTableEntry_ d k : table_only (updateDispatchTableEntry_ d k).
Proof.
  intros e. unfold updateDispatchTableEntry_.
  repeat case_match; simpl; by repeat split.
Qed.

Lemma table_only_updateDispatchTable_ d k : table_only (updateDispatchTable_ d k).
Proof.
  unfold updateDispatchTable_. case_match; [apply table_only_updateDispatchTableEntry_|].
  apply table_only_bind;
    [apply table_only_for_each; intros; apply table_only_updateDispatchTableEntry_|].
  intros _. apply table_only_bind.
  - case_match; [apply table_only_updateDispatchTableEntry_ | apply table_only_ret].
  - intros _. case_match; [apply table_only_updateDispatchTableEntry_ | apply table_only_ret].
Qed.

Lemma table_only_updateDispatchTableFull_ d : table_only (updateDispatchTableFull_ d).
Proof.
  unfold updateDispatchTableFull_. apply table_only_bind.
  - apply table_only_updateDispatchTable_.
  - intros _. apply table_only_for_each. intros; apply table_only_updateDispatchTable_.
Qed.

Lemma table_only_update_after_register d dk :
  table_only (match dk with
              | Some k => updateDispatchTable_ d k
              | None => updateDispatchTableFull_ d
              end).
Proof.
  destruct dk; [apply table_only_updateDispatchTable_ | apply table_only_updateDispatchTableFull_].
Qed.

(** A sequence returns only if both of its parts do. *)
Lemma bind_Ok {A B} (m : M A) (f : A -> M B) e b e' :
  bind m f e = (Ok b, e') ->
  exists a e1, m e = (Ok a, e1) /\ f a e1 = (Ok b, e').
Proof.
  unfold bind. destruct (m e) as [[a|x] e1]; [eauto | discriminate].
Qed.

(** The state a sequence leaves: that of its first part when it throws. *)
Lemma bind_snd {A B} (m : M A) (f : A -> M B) e :
  snd (bind m f e) = match fst (m e) with
                     | Ok a => snd (f a (snd (m e)))
                     | Err _ => snd (m e)
                     end.
Proof. unfold bind. by destruct (m e) as [[a|x] e1]. Qed.

Lemma check_cpp_signature_state dk sig dbg e :
  let e1 := snd (check_cpp_signature dk sig dbg e) in
  name_ e1 = name_ e /\ schema_ e1 = schema_ e /\ kernels_ e1 = kernels_ e
  /\ dispatchTable_ e1 = dispatchTable_ e
  /\ (forall rec, cpp_signature_ e = Some rec -> cpp_signature_ e1 = Some rec).
Proof.
  unfold check_cpp_signature.
  destruct sig as [sig|]; [destruct (cpp_signature_ e) as [rec|] eqn:E;
                           [case_bool_decide|]|]; simpl;
    repeat split; try done; intros; congruence.
Qed.

Lemma check_inferred_schema_state inferred e :
  snd (check_inferred_schema inferred e) = e.
Proof. unfold check_inferred_schema. by repeat case_match. Qed.

(** A registration that returns has put the kernel at the front of the list
    of its key, under a new iterator, and left the other lists alone. *)
Lemma registerKernel_Ok d dk k sig inferred dbg e tok e' :
  registerKernel d dk k sig inferred dbg e = (Ok tok, e') ->
  let l := default [] (kernels_ e !! target_key dk) in
  tok = fresh_iterator l
  /\ kernels_ e' = <[target_key dk := (tok, mkAnnotatedKernel k inferred dbg) :: l]> (kernels_ e)
  /\ schema_ e' = schema_ e.
Proof.
  unfold registerKernel. intros H.
  apply bind_Ok in H as (? & e1 & H1 & H).
  apply bind_Ok in H as (? & e2 & H2 & H).
  apply bind_Ok in H as (it & e3 & H3 & H).
  apply bind_Ok in H as (? & e4 & H4 & H).
  injection H as -> ->.
  pose proof (check_cpp_signature_state dk sig dbg e) as (_ & Hs1 & Hk1 & _).
  rewrite H1 in Hs1, Hk1. simpl in Hs1, Hk1.
  pose proof (check_inferred_schema_state inferred e1) as He2. rewrite H2 in He2.
  simpl in He2. subst e2.
  unfold emplace_front in H3. injection H3 as <- <-.
  pose proof (table_only_update_after_register d dk
                (set_kernels e1
                   (<[target_key dk :=
                        (fresh_iterator (default [] (kernels_ e1 !! target_key dk)),
                         mkAnnotatedKernel k inferred dbg)
                        :: default [] (kernels_ e1 !! target_key dk)]> (kernels_ e1))))
    as (_ & Hs4 & Hk4 & _).
  rewrite H4 in Hs4, Hk4. simpl in Hs4, Hk4.
  rewrite Hk1 in Hk4. rewrite Hk1. by rewrite Hs4, Hk4.
Qed.

Lemma fresh_iterator_above (l : AnnotatedKernelContainer) n :
  n ∈ l -> (fst n < fresh_iterator l)%nat.
Proof.
  unfold fresh_iterator. induction l as [|x l IH]; [by intros ?%elem_of_nil|].
  intros [->|Hin]%elem_of_cons; simpl; [lia|].
  specialize (IH Hin). lia.
Qed.

Lemma erase_fresh (l : AnnotatedKernelContainer) a :
  erase (fresh_iterator l) ((fresh_iterator l, a) :: l) = l.
Proof.
  unfold erase. rewrite filter_cons_False by (simpl; intros H; by apply H).
  assert (Hall : Forall (fun n => (fst n < fresh_iterator l)%nat) l)
    by (apply Forall_forall; intros n Hn; by apply fresh_iterator_above).
  generalize (fresh_iterator l) Hall. clear. intros it.
  induction 1 as [|n l Hn _ IH]; [done|].
  rewrite filter_cons_True by (simpl in *; lia). by rewrite IH.
Qed.

(** The state of the kernels after the deregistration of the kernel just
    registered, whatever the table update that follows does. *)
Lemma deregisterKernel__kernels_after_register d dk tok a l e :
  tok = fresh_iterator l ->
  kernels_ e !! target_key dk = Some ((tok, a) :: l) ->
  kernels_ (snd (deregisterKernel_ d dk tok e))
  = if bool_decide (l = []) then delete (target_key dk) (kernels_ e)
    else <[target_key dk := l]> (kernels_ e).
Proof.
  intros -> Hl. unfold deregisterKernel_. rewrite bind_snd.
  unfold erase_registered at 1 2. rewrite Hl.
  rewrite bool_decide_eq_true_2 by (simpl; apply elem_of_cons; by left).
  rewrite erase_fresh.
  match goal with
  | |- kernels_ match fst ?p with _ => _ end = _ =>
      assert (Hp : fst p = Ok tt /\ kernels_ (snd p) =
                     if bool_decide (l = []) then delete (target_key dk) (kernels_ e)
                     else <[target_key dk := l]> (kernels_ e))
        by (case_bool_decide; done);
      destruct Hp as [Hp1 Hp2]; rewrite Hp1
  end.
  match goal with
  | |- kernels_ (snd (updateDispatchTable_ d ?k ?e0)) = _ =>
      destruct (table_only_updateDispatchTable_ d k e0) as (_ & _ & -> & _)
  end.
  exact Hp2.
Qed.


(** C5. When [A] is the active kernel of [K], a registration of a valid
    kernel [B] to [K] that returns makes [B] the kernel
    [getKernelForDispatchKey] gives for [K], and the deregistration of [B]
    through the iterator the registration returned makes it [A] again, with
    the whole kernel map as it was. *)
Theorem shadow_and_restore d K A B sig inferred dbg e tok e1 :
  getKernelForDispatchKey e K = Ok (Some A) ->
  KernelFunction.isValid B = true ->
  registerKernel d (Some K) B sig inferred dbg e = (Ok tok, e1) ->
  getKernelForDispatchKey e1 K = Ok (Some (mkAnnotatedKernel B inferred dbg))
  /\ getKernelForDispatchKey (snd (deregisterKernel_ d (Some K) tok e1)) K = Ok (Some A)
  /\ kernels_ (snd (deregisterKernel_ d (Some K) tok e1)) = kernels_ e.
Proof.
  intros HA HB Hreg.
  apply registerKernel_Ok in Hreg as (Htok & Hk1 & _). simpl in Htok, Hk1.
  assert (HA' := HA). unfold getKernelForDispatchKey in HA'.
  destruct (kernels_ e !! K) as [l|] eqn:El; [|discriminate]. simpl in Htok, Hk1.
  assert (Hfront : getKernelForDispatchKey e1 K = Ok (Some (mkAnnotatedKernel B inferred dbg))).
  { unfold getKernelForDispatchKey. rewrite Hk1, lookup_insert_eq. simpl. by rewrite HB. }
  split; [exact Hfront|].
  assert (Hl1 : kernels_ e1 !! target_key (Some K)
                = Some ((tok, mkAnnotatedKernel B inferred dbg) :: l))
    by (simpl; by rewrite Hk1, lookup_insert_eq).
  pose proof (deregisterKernel__kernels_after_register d (Some K) tok _ l e1 Htok Hl1) as Hk2.
  simpl in Hk2.
  assert (Hne : l <> []) by (intros ->; discriminate).
  rewrite bool_decide_eq_false_2 in Hk2 by done.
  rewrite Hk1, insert_insert_eq, (insert_id _ _ _ El) in Hk2.
  split; [|exact Hk2].
  unfold getKernelForDispatchKey. rewrite Hk2, El. exact HA'.
Qed.

Lemma keeps_ret {A} P (a : A) : keeps P (ret a).
Proof. by intros e. Qed.

Lemma keeps_bind {A B} P (m : M A) (f : A -> M B) :
  keeps P m -> (forall a, keeps P (f a)) -> keeps P (bind m f).
Proof.
  intros Hm Hf e He. rewrite bind_snd. specialize (Hm e He).
  destruct (fst (m e)); [by apply Hf | done].
Qed.

Lemma keeps_table_only {A} (P : OperatorEntry -> Prop) (m : M A) :
  (forall e e', same_registry e e' -> P e -> P e') -> table_only m -> keeps P m.
Proof. intros HP Hm e He. apply (HP e); [apply Hm | done]. Qed.

Lemma signature_recorded_same_registry rec e e' :
  same_registry e e' -> signature_recorded rec e -> signature_recorded rec e'.
Proof. unfold signature_recorded. intros (_ & _ & _ & -> & _). done. Qed.

Lemma registerKernel_keeps_signature rec d dk k sig inferred dbg :
  keeps (signature_recorded rec) (registerKernel d dk k sig inferred dbg).
Proof.
  unfold registerKernel.
  apply keeps_bind.
  { intros e He. by apply check_cpp_signature_state. }
  intros _. apply keeps_bind.
  { intros e He. by rewrite check_inferred_schema_state. }
  intros _. apply keeps_bind.
  { intros e He. exact He. }
  intros it. apply keeps_bind; [|intros; apply keeps_ret].
  apply keeps_table_only; [apply signature_recorded_same_registry|].
  apply table_only_update_after_register.
Qed.

Lemma deregisterKernel__keeps_signature rec d dk it :
  keeps (signature_recorded rec) (deregisterKernel_ d dk it).
Proof.
  unfold deregisterKernel_. apply keeps_bind.
  { intros e He. unfold erase_registered. by repeat case_match. }
  intros _. apply keeps_table_only; [apply signature_recorded_same_registry|].
  apply table_only_updateDispatchTable_.
Qed.

Lemma perform_keeps_signature rec d c e :
  signature_recorded rec e -> signature_recorded rec (perform d c e).
Proof.
  destruct c; simpl.
  - unfold registerSchema. by repeat case_match.
  - unfold deregisterSchema. by repeat case_match.
  - apply registerKernel_keeps_signature.
  - apply deregisterKernel__keeps_signature.
  - apply keeps_table_only; [apply signature_recorded_same_registry|].
    apply table_only_updateDispatchTable_.
Qed.

Lemma perform_all_keeps_signature rec d cs e :
  signature_recorded rec e -> signature_recorded rec (perform_all d cs e).
Proof.
  revert e. induction cs as [|c cs IH]; intros e He; simpl; [done|].
  apply IH. by apply perform_keeps_signature.
Qed.

(** C9. Once a registration has recorded a signature, it stays recorded
    through any later calls, deregistrations among them, and every later
    registration that carries another signature fails with the signature
    mismatch and changes nothing. *)
Theorem recorded_signature_persists d dk k sig inferred dbg e cs :
  cpp_signature_ e = None ->
  let e2 := perform_all d cs (snd (registerKernel d dk k (Some sig) inferred dbg e)) in
  (exists rec, cpp_signature_ e2 = Some rec /\ signature rec = sig)
  /\ forall dk' k' sig' inferred' dbg',
       sig' <> sig ->
       registerKernel d dk' k' (Some sig') inferred' dbg' e2 = (Err SignatureMismatch, e2).
Proof.
  intros Hnone e2.
  set (rec := mkCppSignatureWithDebug sig dbg dk).
  assert (Hrec : signature_recorded rec e2).
  { apply perform_all_keeps_signature.
    unfold registerKernel.
    assert (H1 : signature_recorded rec (snd (check_cpp_signature dk (Some sig) dbg e))
                 /\ fst (check_cpp_signature dk (Some sig) dbg e) = Ok tt).
    { unfold check_cpp_signature. by rewrite Hnone. }
    destruct H1 as [H1 H1'].
    rewrite bind_snd, H1'.
    revert H1. generalize (snd (check_cpp_signature dk (Some sig) dbg e)).
    apply keeps_bind.
    { intros e' He'. by rewrite check_inferred_schema_state. }
    intros _. apply keeps_bind; [by intros e' He'|].
    intros it. apply keeps_bind; [|intros; apply keeps_ret].
    apply keeps_table_only; [apply signature_recorded_same_registry|].
    apply table_only_update_after_register. }
  split; [by exists rec|].
  intros dk' k' sig' inferred' dbg' Hneq.
  unfold registerKernel, bind, check_cpp_signature at 1.
  rewrite Hrec. simpl. by rewrite bool_decide_eq_false_2.
Qed.

Lemma registered_kernels_elem e j :
  j ∈ registered_kernels e <->
  exists k l n, kernels_ e !! k = Some l /\ (n, j) ∈ l.
Proof.
  unfold registered_kernels. rewrite list_elem_of_In, in_concat. split.
  - intros (js & Hjs & Hj). apply in_map_iff in Hjs as ([k l] & <- & Hkl).
    apply in_map_iff in Hj as ([n j'] & <- & Hn).
    exists k, l, n. split; [by apply elem_of_map_to_list, list_elem_of_In|].
    by apply list_elem_of_In.
  - intros (k & l & n & Hl & Hn). exists (map snd l). split.
    + apply in_map_iff. exists (k, l). split; [done|].
      by apply list_elem_of_In, elem_of_map_to_list.
    + apply in_map_iff. exists (n, j). split; [done | by apply list_elem_of_In].
Qed.

Lemma check_all_schemas_Err sch js x :
  check_all_schemas sch js = Err x -> x = SchemaMismatch.
Proof.
  induction js as [|j js IH]; simpl; [discriminate|].
  destruct (inferred_function_schema j) as [inferred|]; simpl; [|exact IH].
  unfold checkSchema. destruct (findSchemaDifferences sch inferred); simpl; [congruence|exact IH].
Qed.

Lemma check_all_schemas_mismatch sch js j inferred :
  j ∈ js -> inferred_function_schema j = Some inferred ->
  findSchemaDifferences sch inferred <> None ->
  check_all_schemas sch js = Err SchemaMismatch.
Proof.
  intros Hj Hinf Hdiff. induction js as [|j' js IH]; [by apply elem_of_nil in Hj|].
  simpl. destruct (inferred_function_schema j') as [inferred'|] eqn:E'; simpl.
  - unfold checkSchema. destruct (findSchemaDifferences sch inferred') eqn:Ed; simpl; [done|].
    apply IH. apply elem_of_cons in Hj as [->|Hj]; [|done]. congruence.
  - apply IH. apply elem_of_cons in Hj as [->|Hj]; [|done]. congruence.
Qed.

(** C7, amended. [registerSchema] fails on its assertion whenever a schema
    is already registered; when none is, it fails with the schema mismatch
    whenever the new schema differs from the inferred schema of a registered
    kernel; and whenever it fails, by either error, the entry is left as it
    was. *)
Theorem registerSchema_failures sch dbg tags e :
  (schema_ e <> None -> registerSchema sch dbg tags e = (Err InternalAssert, e))
  /\ (schema_ e = None -> disagrees_with_a_kernel sch e ->
      registerSchema sch dbg tags e = (Err SchemaMismatch, e))
  /\ (forall x e', registerSchema sch dbg tags e = (Err x, e') ->
      e' = e /\ (x = InternalAssert \/ x = SchemaMismatch)).
Proof.
  unfold registerSchema. repeat split.
  - intros Hs. by rewrite bool_decide_eq_false_2.
  - intros Hs (k & l & n & j & inferred & Hl & Hn & Hinf & Hdiff).
    rewrite bool_decide_eq_true_2 by done.
    rewrite (check_all_schemas_mismatch sch _ j inferred); [done| |done|done].
    apply registered_kernels_elem. eauto.
  - case_bool_decide; [|congruence].
    destruct (check_all_schemas _ _); congruence.
  - revert H. case_bool_decide; [|intros [= <- _]; by left].
    destruct (check_all_schemas _ _) eqn:E; [discriminate|].
    intros [= <- _]. right. by apply check_all_schemas_Err in E.
Qed.

End RegistryProofs.

(** ** The invariants of the kernel map *)

Section InvariantProofs.
Context `{KS : KeySets}.

Lemma keeps_same_registry_kernels {A} (P : OperatorEntry -> Prop) (m : M A) :
  (forall e e', kernels_ e' = kernels_ e -> P e -> P e') -> table_only m -> keeps P m.
Proof.
  intros HP Hm. apply keeps_table_only; [|done].
  intros e e' (_ & _ & Hk & _). by apply HP.
Qed.

Lemma no_empty_list_kernels e e' :
  kernels_ e' = kernels_ e -> no_empty_list e -> no_empty_list e'.
Proof. unfold no_empty_list. by intros ->. Qed.

Lemma no_undefined_kernels e e' :
  kernels_ e' = kernels_ e -> no_undefined e -> no_undefined e'.
Proof. unfold no_undefined. by intros ->. Qed.

Lemma check_cpp_signature_kernels dk sig dbg e :
  kernels_ (snd (check_cpp_signature dk sig dbg e)) = kernels_ e.
Proof. by destruct (check_cpp_signature_state dk sig dbg e) as (_ & _ & -> & _). Qed.

(** The three steps of a registration or deregistration that come before
    the table update keep a property of the kernel map that the insertion
    and the removal keep. *)
Lemma registerKernel_keeps (P : OperatorEntry -> Prop) d dk k sig inferred dbg :
  (forall e e', kernels_ e' = kernels_ e -> P e -> P e') ->
  keeps P (emplace_front (target_key dk) (mkAnnotatedKernel k inferred dbg)) ->
  keeps P (registerKernel d dk k sig inferred dbg).
Proof.
  intros HP Hins. unfold registerKernel.
  apply keeps_bind.
  { intros e. apply HP, check_cpp_signature_kernels. }
  intros _. apply keeps_bind.
  { intros e He. by rewrite check_inferred_schema_state. }
  intros _. apply keeps_bind; [exact Hins|].
  intros it. apply keeps_bind; [|intros; apply keeps_ret].
  apply keeps_same_registry_kernels; [exact HP | apply table_only_update_after_register].
Qed.

Lemma deregisterKernel__keeps (P : OperatorEntry -> Prop) d dk it :
  (forall e e', kernels_ e' = kernels_ e -> P e -> P e') ->
  keeps P (erase_registered (target_key dk) it) ->
  keeps P (deregisterKernel_ d dk it).
Proof.
  intros HP Hdel. unfold deregisterKernel_.
  apply keeps_bind; [exact Hdel|].
  intros _. apply keeps_same_registry_kernels; [exact HP | apply table_only_updateDispatchTable_].
Qed.

Lemma emplace_front_no_empty_list dk a : keeps no_empty_list (emplace_front dk a).
Proof.
  intros e He k l. unfold emplace_front. simpl.
  rewrite lookup_insert. case_decide; [by intros [= <-] | apply He].
Qed.

Lemma erase_registered_no_empty_list dk it : keeps no_empty_list (erase_registered dk it).
Proof.
  intros e He. unfold erase_registered, no_empty_list in *.
  destruct (kernels_ e !! dk) as [l0|]; [|done].
  case_bool_decide; [|done]. case_bool_decide; simpl; intros k l.
  - rewrite lookup_delete. case_decide; [done | apply He].
  - rewrite lookup_insert. case_decide; [by intros [= <-] | apply He].
Qed.

Lemma emplace_front_no_undefined dk a :
  dk <> DispatchKey.Undefined -> keeps no_undefined (emplace_front dk a).
Proof.
  intros Hdk e He. unfold emplace_front, no_undefined. simpl.
  by rewrite lookup_insert_ne.
Qed.

Lemma erase_registered_no_undefined dk it : keeps no_undefined (erase_registered dk it).
Proof.
  intros e He. unfold erase_registered, no_undefined in *.
  destruct (kernels_ e !! dk) as [l0|] eqn:El; [|done].
  assert (dk <> DispatchKey.Undefined) by congruence.
  case_bool_decide; [|done]. case_bool_decide; simpl.
  - by rewrite lookup_delete_ne.
  - by rewrite lookup_insert_ne.
Qed.

Lemma perform_no_empty_list d c e : no_empty_list e -> no_empty_list (perform d c e).
Proof.
  destruct c; simpl.
  - unfold registerSchema. by repeat case_match.
  - unfold deregisterSchema. by repeat case_match.
  - apply registerKernel_keeps; [apply no_empty_list_kernels | apply emplace_front_no_empty_list].
  - apply deregisterKernel__keeps;
      [apply no_empty_list_kernels | apply erase_registered_no_empty_list].
  - apply keeps_same_registry_kernels;
      [apply no_empty_list_kernels | apply table_only_updateDispatchTable_].
Qed.

Lemma perform_no_undefined d c e :
  key_defined c -> no_undefined e -> no_undefined (perform d c e).
Proof.
  destruct c as [sch dbg tags| |dk k sig inferred dbg|dk it|dk]; simpl; intros Hc.
  - unfold registerSchema. by repeat case_match.
  - unfold deregisterSchema. by repeat case_match.
  - apply registerKernel_keeps; [apply no_undefined_kernels|].
    apply emplace_front_no_undefined. by destruct dk.
  - apply deregisterKernel__keeps;
      [apply no_undefined_kernels | apply erase_registered_no_undefined].
  - apply keeps_same_registry_kernels;
      [apply no_undefined_kernels | apply table_only_updateDispatchTable_].
Qed.

Lemma perform_all_no_empty_list d cs e :
  no_empty_list e -> no_empty_list (perform_all d cs e).
Proof.
  revert e. induction cs as [|c cs IH]; intros e He; simpl; [done|].
  by apply IH, perform_no_empty_list.
Qed.

Lemma perform_all_no_undefined d cs e :
  Forall key_defined cs -> no_undefined e -> no_undefined (perform_all d cs e).
Proof.
  intros Hcs. revert e. induction Hcs as [|c cs Hc _ IH]; intros e He; simpl; [done|].
  by apply IH, perform_no_undefined.
Qed.

Lemma OperatorEntry_new_kernels d name : kernels_ (snd (OperatorEntry_new d name)) = ∅.
Proof.
  unfold OperatorEntry_new.
  by destruct (table_only_updateDispatchTableFull_ d
                 (mkOperatorEntry name None []
                    (replicate (Z.to_nat num_runtime_entries) KernelFunction.default)
                    ∅ None)) as (_ & _ & -> & _).
Qed.

(** X20. The part of the invariants that does hold: in every state the
    calls lead to from the constructor, no key has an empty list; and no list
    is registered for [Undefined] as long as no registration names that
    key. *)
Lemma kernel_map_invariants d name cs :
  no_empty_list (perform_all d cs (snd (OperatorEntry_new d name)))
  /\ (Forall key_defined cs ->
      no_undefined (perform_all d cs (snd (OperatorEntry_new d name)))).
Proof.
  split.
  - apply perform_all_no_empty_list. intros k l.
    by rewrite OperatorEntry_new_kernels, lookup_empty.
  - intros Hcs. apply perform_all_no_undefined; [done|].
    unfold no_undefined. by rewrite OperatorEntry_new_kernels.
Qed.

End InvariantProofs.

(** ** The code on concrete entries *)

(** C2, on a failing input. After a registration to
    [CompositeImplicitAutograd] and one to [CompositeExplicitAutograd], both
    of which return, the live slot of [AutogradCPU] still holds the
    composite kernel, while the computation from scratch gives the missing
    marker: the update for the explicit alias does not visit the autograd
    keys. [checkInvariants] fails on this state. *)
Theorem stale_slot_after_explicit_alias :
  reachable Scenario.dispatcher Scenario.composite_explicit
  /\ fst (registerKernel Scenario.dispatcher (Some DispatchKey.CompositeImplicitAutograd)
            Scenario.K_math None None "math" Scenario.fresh) = Ok 1%nat
  /\ fst (registerKernel Scenario.dispatcher (Some DispatchKey.CompositeExplicitAutograd)
            Scenario.K_explicit None None "explicit" Scenario.composite) = Ok 1%nat
  /\ live_slot Scenario.composite_explicit DispatchKey.AutogradCPU = Some Scenario.K_math
  /\ computeDispatchTableEntry Scenario.composite_explicit Scenario.dispatcher
       DispatchKey.AutogradCPU = Ok KernelFunction.default
  /\ DispatchKey.AutogradCPU ∈ keys_of FULL
  /\ checkInvariants Scenario.dispatcher Scenario.composite = Ok tt
  /\ checkInvariants Scenario.dispatcher Scenario.composite_explicit = Err InternalAssert
  /\ ~ table_in_sync Scenario.dispatcher Scenario.composite_explicit.
Proof.
  assert (Hfull : DispatchKey.AutogradCPU ∈ keys_of FULL)
    by (apply list_elem_of_In; vm_compute; tauto).
  split.
  { exists "aten::op"%string,
      [Scenario.register DispatchKey.CompositeImplicitAutograd Scenario.K_math "math";
       Scenario.register DispatchKey.CompositeExplicitAutograd Scenario.K_explicit "explicit"].
    vm_compute. reflexivity. }
  do 4 (split; [vm_compute; reflexivity|]).
  split; [exact Hfull|].
  do 2 (split; [vm_compute; reflexivity|]).
  intros Hsync. specialize (Hsync DispatchKey.AutogradCPU (or_intror Hfull)).
  vm_compute in Hsync. discriminate Hsync.
Qed.

(** C6, on a failing input. On the entry above, the registration of a
    [CPU] kernel followed by its deregistration, both of which return,
    restores the kernel map but not the dispatch table: the two updates
    visit [AutogradCPU], whose slot held the stale composite kernel before
    and holds the missing marker after. *)
Theorem register_deregister_changes_stale_slot :
  exists tok e1 e2,
    registerKernel Scenario.dispatcher (Some DispatchKey.CPU) Scenario.K_cpu None None "cpu"
      Scenario.composite_explicit = (Ok tok, e1)
    /\ deregisterKernel_ Scenario.dispatcher (Some DispatchKey.CPU) tok e1 = (Ok tt, e2)
    /\ kernels_ e2 = kernels_ Scenario.composite_explicit
    /\ live_slot Scenario.composite_explicit DispatchKey.AutogradCPU = Some Scenario.K_math
    /\ live_slot e2 DispatchKey.AutogradCPU = Some KernelFunction.default
    /\ dispatchTable_ e2 <> dispatchTable_ Scenario.composite_explicit.
Proof.
  eexists _, _, _.
  split; [vm_compute; reflexivity|].
  split; [vm_compute; reflexivity|].
  split; [vm_compute; reflexivity|].
  split; [vm_compute; reflexivity|].
  split; [vm_compute; reflexivity|].
  vm_compute. discriminate.
Qed.

(** C10, on a failing input. A registration whose key is [Undefined]
    returns and leaves a list for [Undefined] in the kernel map, which
    [checkInvariants] then rejects. *)
Theorem undefined_key_is_stored :
  reachable Scenario.dispatcher Scenario.undefined_key
  /\ fst (registerKernel Scenario.dispatcher (Some DispatchKey.Undefined) Scenario.K_cpu
            None None "undefined" Scenario.fresh) = Ok 1%nat
  /\ kernels_ Scenario.undefined_key !! DispatchKey.Undefined
     = Some [(1%nat, mkAnnotatedKernel Scenario.K_cpu None "undefined")]
  /\ checkInvariants Scenario.dispatcher Scenario.undefined_key = Err InternalAssert
  /\ hasKernelForDispatchKey Scenario.undefined_key DispatchKey.CPU = Err InternalAssert.
Proof.
  split.
  { exists "aten::op"%string,
      [Scenario.register DispatchKey.Undefined Scenario.K_cpu "undefined"].
    vm_compute. reflexivity. }
  repeat split; vm_compute; reflexivity.
Qed.

(** C3 as stated fails: with a kernel registered to [AutogradOther] itself,
    next to the composite kernel and the [FPGA] kernel, the entry of
    [AutogradOther] is that kernel, not the ambiguous marker. *)
Lemma ambiguous_autogradother_counterexample :
  ~ (forall (e : OperatorEntry) (d : Dispatcher) (m : AnnotatedKernel),
        kernels_ok (kernels_ e) = true ->
        active (kernels_ e) DispatchKey.CompositeImplicitAutograd = Some m ->
        registered_in (kernels_ e) autogradother_backends = true ->
        computeDispatchTableEntry e d DispatchKey.AutogradOther
        = Ok (kernel ambiguousAutogradOtherKernel)).
Proof.
  intros H.
  specialize (H Scenario.composite_fpga_autogradother Scenario.dispatcher
                (mkAnnotatedKernel Scenario.K_math None "math")).
  assert (Hr : computeDispatchTableEntry Scenario.composite_fpga_autogradother
                 Scenario.dispatcher DispatchKey.AutogradOther
               = Ok Scenario.K_autograd_other) by (vm_compute; reflexivity).
  rewrite Hr in H.
  discriminate H; vm_compute; reflexivity.
Qed.

(** C4 as stated fails: with a kernel registered to
    [CompositeExplicitAutogradNonFunctional] next to the composite kernel,
    the entry of [AutogradCPU] is still the composite kernel. *)
Lemma composite_implicit_skipped_counterexample :
  ~ (forall (e : OperatorEntry) (d : Dispatcher) (K : DispatchKey) (m : AnnotatedKernel),
        kernels_ok (kernels_ e) = true -> fallback_slot_ok d K = true ->
        active (kernels_ e) DispatchKey.CompositeImplicitAutograd = Some m ->
        registered_in (kernels_ e) (getBackendKeySetFromAutograd K) = true
        \/ registered_at (kernels_ e) DispatchKey.CompositeExplicitAutogradNonFunctional = true
        \/ registered_at (kernels_ e) DispatchKey.CompositeExplicitAutograd = true ->
        computeDispatchTableEntryWithDebug e d K <> Ok (m, "math kernel"%string)).
Proof.
  intros H.
  apply (H Scenario.composite_nonfunctional Scenario.dispatcher DispatchKey.AutogradCPU
           (mkAnnotatedKernel Scenario.K_math None "math")).
  - vm_compute; reflexivity.
  - vm_compute; reflexivity.
  - vm_compute; reflexivity.
  - right. left. vm_compute; reflexivity.
  - vm_compute; reflexivity.
Qed.

(** C7 as stated fails: when a schema is already registered, a new schema
    that differs from the inferred schema of a registered kernel makes
    [registerSchema] fail on its assertion, not with the schema mismatch. *)
Lemma registerSchema_counterexample :
  ~ (forall (e : OperatorEntry) (sch : FunctionSchema) (dbg : string) (tags : list Tag),
        disagrees_with_a_kernel sch e ->
        fst (registerSchema sch dbg tags e) = Err SchemaMismatch).
Proof.
  intros H.
  specialize (H Scenario.with_schema Scenario.schema_b "def2"%string []).
  assert (Hr : fst (registerSchema Scenario.schema_b "def2" [] Scenario.with_schema)
               = Err InternalAssert) by (vm_compute; reflexivity).
  rewrite Hr in H. discriminate H.
  exists DispatchKey.CPU, [(1%nat, mkAnnotatedKernel Scenario.K_cpu (Some Scenario.schema_a) "cpu")],
    1%nat, (mkAnnotatedKernel Scenario.K_cpu (Some Scenario.schema_a) "cpu"), Scenario.schema_a.
  split; [vm_compute; reflexivity|].
  split; [constructor|].
  split; [reflexivity|]. vm_compute. discriminate.
Qed.

(** The concrete scenario of the specification: with the composite kernel
    alone, then a [CPU] kernel, [CPU] gets the direct kernel and [CUDA]
    still the composite one. *)
Lemma computeDispatchTableEntry_precedence_witness :
  computeDispatchTableEntryWithDebug Scenario.composite_cpu Scenario.dispatcher DispatchKey.CUDA
  = Ok (mkAnnotatedKernel Scenario.K_math None "math", "math kernel"%string)
  /\ computeDispatchTableEntryWithDebug Scenario.composite_cpu Scenario.dispatcher DispatchKey.CPU
     = Ok (mkAnnotatedKernel Scenario.K_cpu None "cpu", "kernel"%string).
Proof.
  split.
  - destruct (computeDispatchTableEntry_precedence Scenario.composite_cpu Scenario.dispatcher
                DispatchKey.CUDA) as (_ & H & _).
    destruct H as [H _]; [vm_compute; reflexivity | vm_compute; reflexivity |].
    rewrite H. vm_compute. reflexivity.
  - destruct (computeDispatchTableEntry_precedence Scenario.composite_cpu Scenario.dispatcher
                DispatchKey.CPU) as (_ & H & _).
    destruct H as [H _]; [vm_compute; reflexivity | vm_compute; reflexivity |].
    rewrite H. vm_compute. reflexivity.
Defined.

Lemma ambiguous_autogradother_witness :
  computeDispatchTableEntryWithDebug Scenario.composite_fpga Scenario.dispatcher
    DispatchKey.AutogradOther
  = Ok (ambiguousAutogradOtherKernel, "ambiguous autogradother"%string).
Proof.
  apply (ambiguous_autogradother Scenario.composite_fpga Scenario.dispatcher
           (mkAnnotatedKernel Scenario.K_math None "math"));
    vm_compute; reflexivity.
Defined.

Lemma composite_implicit_skipped_witness :
  computeDispatchTableEntryWithDebug Scenario.composite_cpu Scenario.dispatcher
    DispatchKey.AutogradCPU
  = Ok (missingKernel, "missing"%string)
  /\ computeDispatchTableEntryWithDebug Scenario.composite_explicit Scenario.dispatcher
       DispatchKey.AutogradCPU
     = Ok (missingKernel, "missing"%string).
Proof.
  split.
  - destruct (composite_implicit_skipped Scenario.composite_cpu Scenario.dispatcher
                DispatchKey.AutogradCPU) as [H _];
      [vm_compute; reflexivity | vm_compute; reflexivity
      | left; vm_compute; reflexivity |].
    rewrite H. vm_compute. reflexivity.
  - destruct (composite_implicit_skipped Scenario.composite_explicit Scenario.dispatcher
                DispatchKey.AutogradCPU) as [H _];
      [vm_compute; reflexivity | vm_compute; reflexivity
      | right; vm_compute; reflexivity |].
    rewrite H. vm_compute. reflexivity.
Defined.

Lemma shadow_and_restore_witness :
  let e := Scenario.composite_cpu in
  let r := registerKernel Scenario.dispatcher (Some DispatchKey.CPU) Scenario.K_explicit
             None None "cpu2" e in
  fst r = Ok 2%nat
  /\ getKernelForDispatchKey (snd r) DispatchKey.CPU
     = Ok (Some (mkAnnotatedKernel Scenario.K_explicit None "cpu2"))
  /\ getKernelForDispatchKey
       (snd (deregisterKernel_ Scenario.dispatcher (Some DispatchKey.CPU) 2%nat (snd r)))
       DispatchKey.CPU
     = Ok (Some (mkAnnotatedKernel Scenario.K_cpu None "cpu")).
Proof.
  intros e r.
  assert (Hr : registerKernel Scenario.dispatcher (Some DispatchKey.CPU) Scenario.K_explicit
                 None None "cpu2" e = (Ok 2%nat, snd r)) by (vm_compute; reflexivity).
  split; [vm_compute; reflexivity|].
  destruct (shadow_and_restore Scenario.dispatcher DispatchKey.CPU
              (mkAnnotatedKernel Scenario.K_cpu None "cpu") Scenario.K_explicit
              None None "cpu2" e 2%nat (snd r)) as (H1 & H2 & _);
    [vm_compute; reflexivity | vm_compute; reflexivity | exact Hr |].
  split; [exact H1 | exact H2].
Defined.

Lemma recorded_signature_persists_witness :
  let e1 := snd (registerKernel Scenario.dispatcher (Some DispatchKey.CPU) Scenario.K_cpu
                   (Some "Tensor (Tensor)"%string) None "cpu" Scenario.fresh) in
  let e2 := perform_all Scenario.dispatcher
              [call_deregisterKernel (Some DispatchKey.CPU) 1%nat] e1 in
  kernels_ e2 = ∅
  /\ registerKernel Scenario.dispatcher (Some DispatchKey.CUDA) Scenario.K_explicit
       (Some "Tensor (Tensor, Tensor)"%string) None "cuda" e2
     = (Err SignatureMismatch, e2).
Proof.
  intros e1 e2. split; [vm_compute; reflexivity|].
  destruct (recorded_signature_persists Scenario.dispatcher (Some DispatchKey.CPU)
              Scenario.K_cpu "Tensor (Tensor)"%string None "cpu" Scenario.fresh
              [call_deregisterKernel (Some DispatchKey.CPU) 1%nat]) as [_ H];
    [vm_compute; reflexivity|].
  apply H. discriminate.
Defined.

Lemma registerSchema_failures_witness :
  registerSchema Scenario.schema_b "def2" [] Scenario.with_schema
  = (Err InternalAssert, Scenario.with_schema)
  /\ registerSchema Scenario.schema_b "def2" [] (snd (deregisterSchema Scenario.with_schema))
     = (Err SchemaMismatch, snd (deregisterSchema Scenario.with_schema)).
Proof.
  split.
  - destruct (registerSchema_failures Scenario.schema_b "def2" [] Scenario.with_schema)
      as (H & _ & _).
    apply H. vm_compute. discriminate.
  - destruct (registerSchema_failures Scenario.schema_b "def2" []
                (snd (deregisterSchema Scenario.with_schema))) as (_ & H & _).
    apply H; [vm_compute; reflexivity|].
    exists DispatchKey.CPU,
      [(1%nat, mkAnnotatedKernel Scenario.K_cpu (Some Scenario.schema_a) "cpu")],
      1%nat, (mkAnnotatedKernel Scenario.K_cpu (Some Scenario.schema_a) "cpu"),
      Scenario.schema_a.
    split; [vm_compute; reflexivity|].
    split; [constructor|].
    split; [reflexivity|]. vm_compute. discriminate.
Defined.

(** * Further properties *)

(** ** More of the key algebra *)

(** X1. For a per-backend functionality key and a backend component from
    [InvalidBit] to [EndOfBackendKeys],
    [toRuntimePerBackendFunctionalityKey] gives a key inside the ranges of
    the per-backend runtime keys, from which [toFunctionalityKey] gives back
    the functionality and [toBackendComponent] the backend; that key is never
    an alias key. *)
Theorem functionality_backend_roundtrip (f : DispatchKey) (b : BackendComponent) :
  isPerBackendFunctionalityKey f = true ->
  0 <= b <= BackendComponent.EndOfBackendKeys ->
  let k := toRuntimePerBackendFunctionalityKey f b in
  DispatchKey.StartOfDenseBackends <= k <= DispatchKey.EndOfRuntimeBackendKeys
  /\ toFunctionalityKey k = f
  /\ toBackendComponent k = b
  /\ isAliasDispatchKey k = false.
Proof.
  unfold isPerBackendFunctionalityKey, isAliasDispatchKey.
  unfold DispatchKey.StartOfAliasKeys, DispatchKey.EndOfAliasKeys, DispatchKey.Autograd,
    DispatchKey.CompositeExplicitAutogradNonFunctional.
  unfold_keys. intros Hf Hb.
  assert (Hcases : f = 1 \/ f = 6 \/ f = 9 \/ f = 24 \/ f = 12).
  { revert Hf. case_leb. all: intros H; try discriminate H. all: lia. }
  assert (Hb8 : b mod 256 = b) by (apply Z.mod_small; lia).
  rewrite Hb8.
  destruct Hcases as [->|[->|[->|[->| ->]]]]; simpl (_ =? _); cbv iota;
    match goal with
    | |- context [(?c mod 256 + b) mod 65536] =>
        replace ((c mod 256 + b) mod 65536) with (c + b)
          by (Z.to_euclidean_division_equations; lia)
    end;
    repeat match goal with
           | |- context [?x <=? ?y] =>
               first [ rewrite (proj2 (Z.leb_le x y)) by lia
                     | rewrite (proj2 (Z.leb_gt x y)) by lia ]
           end; simpl andb; cbv iota;
    (repeat split; [lia | lia | Z.to_euclidean_division_equations; lia]).
Qed.

(** X2. Outside the per-backend ranges the decomposition has no backend:
    a key up to [EndOfFunctionalityKeys] is its own functionality, a key
    above [EndOfRuntimeBackendKeys] (so every alias key) has the functionality
    [Undefined], both with the backend [InvalidBit]; an alias key is no
    per-backend functionality; and [toRuntimePerBackendFunctionalityKey]
    gives [Undefined] for a functionality that is not per-backend. *)
Theorem decomposition_outside_per_backend_ranges (k : DispatchKey) :
  is_uint16 k ->
  (k <= DispatchKey.EndOfFunctionalityKeys ->
   toFunctionalityKey k = k /\ toBackendComponent k = BackendComponent.InvalidBit)
  /\ (DispatchKey.EndOfRuntimeBackendKeys < k ->
      toFunctionalityKey k = DispatchKey.Undefined
      /\ toBackendComponent k = BackendComponent.InvalidBit)
  /\ (isAliasDispatchKey k = true ->
      DispatchKey.EndOfRuntimeBackendKeys < k
      /\ isPerBackendFunctionalityKey k = false)
  /\ (isPerBackendFunctionalityKey k = false ->
      forall b, toRuntimePerBackendFunctionalityKey k b = DispatchKey.Undefined).
Proof.
  unfold isPerBackendFunctionalityKey, isAliasDispatchKey.
  unfold DispatchKey.StartOfAliasKeys, DispatchKey.EndOfAliasKeys, DispatchKey.Autograd,
    DispatchKey.CompositeExplicitAutogradNonFunctional.
  unfold_keys. intros Hk.
  split; [intros H|split; [intros H|split; [intros H|intros H b]]].
  - split; case_leb; lia.
  - split; case_leb; lia.
  - revert H. case_leb; intros Hx; try discriminate Hx; split; try reflexivity; lia.
  - revert H. case_leb; intros Hx; try discriminate Hx; try reflexivity; lia.
Qed.

(** ** The table updates *)

Section UpdateProofs.
Context `{KS : KeySets}.

Lemma bind_assoc {A B C} (m : M A) (f : A -> M B) (g : B -> M C) e :
  bind (bind m f) g e = bind m (fun a => bind (f a) g) e.
Proof. unfold bind. by destruct (m e) as [[a|x] e1]. Qed.

Lemma bind_ext {A B} (m1 m2 : M A) (f1 f2 : A -> M B) e :
  (forall e, m1 e = m2 e) -> (forall a e, f1 a e = f2 a e) ->
  bind m1 f1 e = bind m2 f2 e.
Proof. intros Hm Hf. unfold bind. rewrite Hm. destruct (m2 e) as [[a|x] e1]; [apply Hf|done]. Qed.

Lemma bind_ret_unit (m : M unit) e : bind m (fun _ => ret tt) e = m e.
Proof. unfold bind, ret. by destruct (m e) as [[[]|x] e1]. Qed.

Lemma for_each_app {A} (l1 l2 : list A) (body : A -> M unit) e :
  for_each (l1 ++ l2) body e = bind (for_each l1 body) (fun _ => for_each l2 body) e.
Proof.
  revert e. induction l1 as [|a l1 IH]; intros e; simpl; [done|].
  rewrite bind_assoc. apply bind_ext; [done|]. intros _ e'. apply IH.
Qed.

Lemma for_each_concat {A B} (f : A -> list B) (l : list A) (body : B -> M unit) e :
  for_each (concat (map f l)) body e = for_each l (fun a => for_each (f a) body) e.
Proof.
  revert e. induction l as [|a l IH]; intros e; simpl; [done|].
  rewrite for_each_app. apply bind_ext; [done|]. intros _ e'. apply IH.
Qed.

Lemma for_each_optional (c : bool) (k : DispatchKey) (body : DispatchKey -> M unit) e :
  for_each (if c then [k] else []) body e = (if c then body k else ret tt) e.
Proof. destruct c; simpl; [apply bind_ret_unit | done]. Qed.

(** [updateDispatchTable_] is the update of the slots of the associated
    keys, one after the other. *)
Lemma updateDispatchTable__trace d k e :
  updateDispatchTable_ d k e = for_each (associated_keys k) (updateDispatchTableEntry_ d) e.
Proof.
  unfold updateDispatchTable_, associated_keys.
  destruct (k =? DispatchKey.Undefined); simpl; [by rewrite bind_ret_unit|].
  rewrite for_each_app. apply bind_ext; [done|]. intros _ e1.
  rewrite for_each_app. apply bind_ext.
  - intros e2. by rewrite for_each_optional.
  - intros _ e2. by rewrite for_each_optional.
Qed.

Lemma updateDispatchTableFull__trace d e :
  updateDispatchTableFull_ d e = for_each associated_keys_full (updateDispatchTableEntry_ d) e.
Proof.
  unfold updateDispatchTableFull_, associated_keys_full.
  rewrite for_each_app. apply bind_ext.
  - intros e1. apply updateDispatchTable__trace.
  - intros _ e1. rewrite for_each_concat.
    generalize (keys_of FULL). intros l. revert e1.
    induction l as [|a l IH]; intros e1; simpl; [done|].
    apply bind_ext; [intros; apply updateDispatchTable__trace | intros _ e2; apply IH].
Qed.

Lemma computeDispatchTableEntry_kernels_only e e' d K :
  kernels_ e' = kernels_ e ->
  computeDispatchTableEntry e' d K = computeDispatchTableEntry e d K.
Proof.
  intros Hk. unfold computeDispatchTableEntry.
  by rewrite (computeDispatchTableEntryWithDebug_kernels_only e e' d K Hk).
Qed.

Lemma computeDispatchTableEntry_precedence_Ok e d K kf :
  computeDispatchTableEntry e d K = Ok kf ->
  kf = kernel (fst (precedence (kernels_ e) d K)).
Proof.
  unfold computeDispatchTableEntry, Result_bind.
  destruct (computeDispatchTableEntryWithDebug e d K) as [r|] eqn:E; [|discriminate].
  apply computeDispatchTableEntryWithDebug_sound in E. subst r. by intros [= <-].
Qed.

(** What one returning slot update has done. *)
Lemma updateDispatchTableEntry__Ok d k e e' :
  updateDispatchTableEntry_ d k e = (Ok tt, e') ->
  let ix := getDispatchTableIndexForDispatchKey k in
  (ix = -1 /\ e' = e)
  \/ (ix <> -1 /\ 0 <= ix < Z.of_nat (length (dispatchTable_ e))
      /\ exists kf, computeDispatchTableEntry e d k = Ok kf
                    /\ e' = set_dispatchTable e (<[Z.to_nat ix := kf]> (dispatchTable_ e))).
Proof.
  intros H. cbv zeta. unfold updateDispatchTableEntry_ in H.
  set (ix := getDispatchTableIndexForDispatchKey k) in *.
  destruct (ix =? -1) eqn:E1.
  - left. apply Z.eqb_eq in E1. by injection H as <-.
  - right. apply Z.eqb_neq in E1. split; [done|].
    destruct (computeDispatchTableEntry e d k) as [kf|]; [|discriminate].
    destruct ((0 <=? ix) && (ix <? _)) eqn:E2; [|discriminate].
    apply andb_true_iff in E2 as [?%Z.leb_le ?%Z.ltb_lt].
    injection H as <-. split; [lia|]. by exists kf.
Qed.

(** What a returning sequence of slot updates has done: the registry is as
    before; a slot no key of the sequence maps to is as before; and the slot
    of a key of the sequence that shares it with no other holds the kernel
    computed for that key. *)
Lemma for_each_update_Ok d ks e e' :
  for_each ks (updateDispatchTableEntry_ d) e = (Ok tt, e') ->
  same_registry e e'
  /\ length (dispatchTable_ e') = length (dispatchTable_ e)
  /\ (forall i : nat,
        (forall k, k ∈ ks -> getDispatchTableIndexForDispatchKey k <> Z.of_nat i) ->
        dispatchTable_ e' !! i = dispatchTable_ e !! i)
  /\ (forall k, k ∈ ks -> getDispatchTableIndexForDispatchKey k <> -1 ->
        (forall k', k' ∈ ks ->
           getDispatchTableIndexForDispatchKey k' = getDispatchTableIndexForDispatchKey k ->
           k' = k) ->
        0 <= getDispatchTableIndexForDispatchKey k < Z.of_nat (length (dispatchTable_ e))
        /\ exists kf, computeDispatchTableEntry e d k = Ok kf
                      /\ dispatchTable_ e' !! Z.to_nat (getDispatchTableIndexForDispatchKey k)
                         = Some kf).
Proof.
  revert e. induction ks as [|a ks IH]; intros e H.
  { injection H as <-. split; [apply same_registry_refl|]. split; [done|].
    split; [done|]. intros k Hk. by apply elem_of_nil in Hk. }
  simpl in H. apply bind_Ok in H as ([] & e2 & Ha & Hrest).
  destruct (IH e2 Hrest) as (Hreg & Hlen & Hframe & Hsync).
  pose proof (table_only_updateDispatchTableEntry_ d a e) as Hreg2.
  rewrite Ha in Hreg2. simpl in Hreg2.
  assert (Hk2 : kernels_ e2 = kernels_ e) by (by destruct Hreg2 as (_ & _ & ? & _)).
  apply updateDispatchTableEntry__Ok in Ha. simpl in Ha.
  assert (Hlen2 : length (dispatchTable_ e2) = length (dispatchTable_ e)).
  { destruct Ha as [[_ ->]|(_ & _ & kf & _ & ->)]; [done|]. simpl. by rewrite length_insert. }
  split; [by apply (same_registry_trans e e2 e')|].
  split; [congruence|].
  split.
  - intros i Hi. rewrite Hframe by (intros k Hk; apply Hi; by right).
    destruct Ha as [[_ ->]|(Hne & Hrange & kf & _ & ->)]; [done|]. simpl.
    apply list_lookup_insert_ne. intros Heq. apply (Hi a); [by left|]. lia.
  - intros k Hk Hne Hinj. rewrite <- Hlen2.
    destruct (decide (k ∈ ks)) as [Hin|Hnin].
    + destruct (Hsync k Hin Hne) as (Hr & kf & Hc & Hl).
      { intros k' Hk'. apply Hinj. by right. }
      split; [done|]. exists kf. split; [|done].
      by rewrite <- (computeDispatchTableEntry_kernels_only e e2 d k Hk2).
    + apply elem_of_cons in Hk as [->|Hk]; [|done].
      destruct Ha as [[Hm1 _]|(_ & Hrange & kf & Hc & ->)]; [done|].
      split; [by rewrite Hlen2|]. exists kf. split; [done|].
      rewrite Hframe.
      * simpl. apply list_lookup_insert_eq. lia.
      * intros k' Hk' Heq.
        assert (k' = a) by (apply Hinj; [by right | lia]). by subst.
Qed.


Lemma index_injective_on_spec ks k1 k2 :
  index_injective_on ks = true -> k1 ∈ ks -> k2 ∈ ks ->
  getDispatchTableIndexForDispatchKey k1 = getDispatchTableIndexForDispatchKey k2 ->
  k1 = k2.
Proof.
  unfold index_injective_on. rewrite forallb_forall. intros H H1 H2 Heq.
  specialize (H k1 (proj1 (list_elem_of_In _ _) H1)). rewrite forallb_forall in H.
  specialize (H k2 (proj1 (list_elem_of_In _ _) H2)).
  rewrite Heq, Z.eqb_refl in H. simpl in H. by apply Z.eqb_eq.
Qed.

Lemma updateDispatchTable__live_slots d K e e' :
  updateDispatchTable_ d K e = (Ok tt, e') ->
  index_injective_on (associated_keys K) = true ->
  forall k, k ∈ associated_keys K -> getDispatchTableIndexForDispatchKey k <> -1 ->
            live_slot e' k = Some (kernel (fst (precedence (kernels_ e) d k))).
Proof.
  rewrite updateDispatchTable__trace. intros H.
  apply for_each_update_Ok in H as (Hreg & Hlen & Hframe & Hsync).
  intros Hinj k Hk Hne.
  destruct (Hsync k Hk Hne) as (_ & kf & Hc & Hl).
  { intros k' Hk'. by apply (index_injective_on_spec (associated_keys K)). }
  unfold live_slot. rewrite Hl. f_equal.
  by apply computeDispatchTableEntry_precedence_Ok.
Qed.

(** X3. A returning [updateDispatchTable_] (so also [updateFallback])
    leaves the registry and every slot outside the associated keys as they
    were, and, when no two associated keys share a slot, leaves in the slot
    of each associated key the kernel the precedence rules give it. *)
Theorem updateDispatchTable__synchronizes d K e e' :
  updateDispatchTable_ d K e = (Ok tt, e') ->
  same_registry e e'
  /\ length (dispatchTable_ e') = length (dispatchTable_ e)
  /\ (forall i : nat,
        (forall k, k ∈ associated_keys K ->
                   getDispatchTableIndexForDispatchKey k <> Z.of_nat i) ->
        dispatchTable_ e' !! i = dispatchTable_ e !! i)
  /\ (index_injective_on (associated_keys K) = true ->
      forall k, k ∈ associated_keys K -> getDispatchTableIndexForDispatchKey k <> -1 ->
                live_slot e' k = Some (kernel (fst (precedence (kernels_ e) d k)))).
Proof.
  intros H. pose proof (updateDispatchTable__live_slots d K e e' H) as Hlive.
  rewrite updateDispatchTable__trace in H.
  apply for_each_update_Ok in H as (Hreg & Hlen & Hframe & _).
  by do 3 (split; [done|]).
Qed.

Lemma updateDispatchTableFull__table_in_sync d e e' :
  index_injective_on associated_keys_full = true ->
  forallb (fun k => negb (getDispatchTableIndexForDispatchKey k =? -1)) associated_keys_full
  = true ->
  forallb (fun k => bool_decide (k ∈ associated_keys k)) (keys_of FULL) = true ->
  updateDispatchTableFull_ d e = (Ok tt, e') ->
  table_in_sync d e'.
Proof.
  intros Hinj Hidx Hself. rewrite updateDispatchTableFull__trace. intros H.
  apply for_each_update_Ok in H as (Hreg & Hlen & Hframe & Hsync).
  assert (Hk : kernels_ e' = kernels_ e) by (by destruct Hreg as (_ & _ & ? & _)).
  intros K HK.
  assert (Hin : K ∈ associated_keys_full).
  { unfold associated_keys_full. apply elem_of_app. destruct HK as [->|HK].
    - left. unfold associated_keys. simpl. by left.
    - right. rewrite forallb_forall in Hself.
      specialize (Hself K (proj1 (list_elem_of_In _ _) HK)).
      apply bool_decide_eq_true in Hself.
      apply list_elem_of_In, in_concat. exists (associated_keys K).
      split; [apply in_map; by apply list_elem_of_In | by apply list_elem_of_In]. }
  rewrite forallb_forall in Hidx.
  specialize (Hidx K (proj1 (list_elem_of_In _ _) Hin)).
  apply negb_true_iff, Z.eqb_neq in Hidx.
  destruct (Hsync K Hin Hidx) as (_ & kf & Hc & Hl).
  { intros k' Hk'. by apply (index_injective_on_spec associated_keys_full). }
  unfold live_slot. rewrite Hl, Hk. f_equal. symmetry.
  by apply computeDispatchTableEntry_precedence_Ok.
Qed.

(** X4. After a returning [updateDispatchTableFull_] the whole table is in
    sync with the registrations, provided the key sets are sound: no two
    visited keys share a slot, every visited key has one, and every key of
    [FULL] is among its own associated keys. *)
Theorem updateDispatchTableFull__synchronizes d e e' :
  index_injective_on associated_keys_full = true ->
  forallb (fun k => negb (getDispatchTableIndexForDispatchKey k =? -1)) associated_keys_full
  = true ->
  forallb (fun k => bool_decide (k ∈ associated_keys k)) (keys_of FULL) = true ->
  updateDispatchTableFull_ d e = (Ok tt, e') ->
  same_registry e e' /\ table_in_sync d e'.
Proof.
  intros Hinj Hidx Hself H.
  split; [|by apply (updateDispatchTableFull__table_in_sync d e e')].
  rewrite updateDispatchTableFull__trace in H.
  by apply for_each_update_Ok in H as (Hreg & _).
Qed.

Lemma slots_ok_spec d e ks k :
  slots_ok d e ks = true -> k ∈ ks ->
  0 <= getDispatchTableIndexForDispatchKey k < Z.of_nat (length (dispatchTable_ e))
  /\ fallback_slot_ok d k = true.
Proof.
  unfold slots_ok, fallback_slot_ok. rewrite forallb_forall. intros H Hk.
  specialize (H k (proj1 (list_elem_of_In _ _) Hk)). simpl in H.
  apply andb_true_iff in H as [[?%Z.leb_le ?%Z.ltb_lt]%andb_true_iff Hf].
  split; [lia|]. by rewrite Hf, orb_true_r.
Qed.

Lemma slots_ok_table d e e' ks :
  length (dispatchTable_ e') = length (dispatchTable_ e) ->
  slots_ok d e' ks = slots_ok d e ks.
Proof. unfold slots_ok. by intros ->. Qed.

(** A sequence of slot updates returns on an entry whose kernel map keeps
    the asserted invariants, when every key has a slot. *)
Lemma for_each_update_total d ks e :
  kernels_ok (kernels_ e) = true -> slots_ok d e ks = true ->
  exists e', for_each ks (updateDispatchTableEntry_ d) e = (Ok tt, e').
Proof.
  revert e. induction ks as [|a ks IH]; intros e Hok Hs; [by eexists|].
  destruct (slots_ok_spec d e (a :: ks) a Hs) as [Hr Hf]; [by left|].
  assert (Ha : exists e2, updateDispatchTableEntry_ d a e = (Ok tt, e2)
                          /\ kernels_ e2 = kernels_ e
                          /\ length (dispatchTable_ e2) = length (dispatchTable_ e)).
  { unfold updateDispatchTableEntry_, computeDispatchTableEntry.
    rewrite (computeDispatchTableEntryWithDebug_total e d a Hok Hf). simpl.
    destruct (_ =? -1); [by eexists|].
    rewrite (proj2 (Z.leb_le _ _)), (proj2 (Z.ltb_lt _ _)) by lia. simpl.
    eexists. split; [done|]. simpl. by rewrite length_insert. }
  destruct Ha as (e2 & Ha & Hk2 & Hl2).
  destruct (IH e2) as [e' He'].
  - by rewrite Hk2.
  - rewrite (slots_ok_table d e e2 ks Hl2). unfold slots_ok in *. simpl in Hs.
    by apply andb_true_iff in Hs as [_ ?].
  - exists e'. simpl. unfold bind. by rewrite Ha.
Qed.


Lemma kernels_ok_intro (kernels : gmap Z AnnotatedKernelContainer) :
  kernels !! DispatchKey.Undefined = None ->
  (forall k l, kernels !! k = Some l ->
     exists front l', l = front :: l' /\ KernelFunction.isValid (kernel (snd front)) = true) ->
  kernels_ok kernels = true.
Proof.
  intros Hu Hall. unfold kernels_ok. rewrite bool_decide_eq_true_2 by done. simpl.
  apply forallb_forall. intros [k l] Hin%list_elem_of_In%elem_of_map_to_list.
  destruct (Hall k l Hin) as (front & l' & -> & Hv). exact Hv.
Qed.

Lemma kernels_ok_undefined (kernels : gmap Z AnnotatedKernelContainer) :
  kernels_ok kernels = true -> kernels !! DispatchKey.Undefined = None.
Proof. unfold kernels_ok. by intros [?%bool_decide_eq_true _]%andb_true_iff. Qed.

Lemma kernels_ok_insert (kernels : gmap Z AnnotatedKernelContainer) dk it a l :
  kernels_ok kernels = true -> dk <> DispatchKey.Undefined ->
  KernelFunction.isValid (kernel a) = true ->
  kernels_ok (<[dk := (it, a) :: l]> kernels) = true.
Proof.
  intros Hok Hdk Hv. apply kernels_ok_intro.
  - rewrite lookup_insert_ne by done. by apply kernels_ok_undefined.
  - intros k l0. rewrite lookup_insert. case_decide.
    + intros [= <-]. by eexists _, _.
    + by apply kernels_ok_lookup.
Qed.

(** The steps of a returning registration: the two checks leave the table
    and the kernel map alone, the insertion puts the kernel at the front, and
    the table update runs on that state. *)
Lemma registerKernel_steps d dk k sig inferred dbg e tok e1 :
  registerKernel d dk k sig inferred dbg e = (Ok tok, e1) ->
  exists e3,
    dispatchTable_ e3 = dispatchTable_ e
    /\ kernels_ e3 = <[target_key dk := (tok, mkAnnotatedKernel k inferred dbg)
                                         :: default [] (kernels_ e !! target_key dk)]>
                       (kernels_ e)
    /\ tok = fresh_iterator (default [] (kernels_ e !! target_key dk))
    /\ for_each (keys_updated_by_register dk) (updateDispatchTableEntry_ d) e3 = (Ok tt, e1).
Proof.
  unfold registerKernel. intros H.
  apply bind_Ok in H as (? & ea & H1 & H).
  apply bind_Ok in H as (? & eb & H2 & H).
  apply bind_Ok in H as (it & e3 & H3 & H).
  apply bind_Ok in H as ([] & e4 & H4 & H).
  injection H as -> ->.
  pose proof (check_cpp_signature_state dk sig dbg e) as (_ & _ & Hk1 & Ht1 & _).
  rewrite H1 in Hk1, Ht1. simpl in Hk1, Ht1.
  pose proof (check_inferred_schema_state inferred ea) as He2. rewrite H2 in He2.
  simpl in He2. subst eb.
  unfold emplace_front in H3. injection H3 as Htok He3.
  exists e3. split; [|split; [|split]].
  - subst e3. simpl. exact Ht1.
  - subst e3 tok. simpl. by rewrite Hk1.
  - subst tok. by rewrite Hk1.
  - rewrite <- H4. destruct dk; simpl;
      [symmetry; apply updateDispatchTable__trace
      | symmetry; apply updateDispatchTableFull__trace].
Qed.

Lemma deregisterKernel__steps d dk it e e2 :
  deregisterKernel_ d dk it e = (Ok tt, e2) ->
  exists l e4,
    kernels_ e !! target_key dk = Some l /\ it ∈ map fst l
    /\ dispatchTable_ e4 = dispatchTable_ e
    /\ kernels_ e4 = (if bool_decide (erase it l = []) then delete (target_key dk) (kernels_ e)
                      else <[target_key dk := erase it l]> (kernels_ e))
    /\ for_each (associated_keys (target_key dk)) (updateDispatchTableEntry_ d) e4
       = (Ok tt, e2).
Proof.
  unfold deregisterKernel_. intros H.
  apply bind_Ok in H as ([] & e4 & H1 & H).
  unfold erase_registered in H1.
  destruct (kernels_ e !! target_key dk) as [l|]; [|discriminate].
  case_bool_decide; [|discriminate].
  exists l, e4. split; [done|]. split; [done|].
  rewrite <- updateDispatchTable__trace.
  case_bool_decide; injection H1 as <-; by repeat split.
Qed.




(** X6. A registration returns, with the iterator of the new node,
    whenever its key is not [Undefined], its kernel is valid, its signature
    and inferred schema agree with the recorded ones, the kernel map keeps
    the asserted invariants and every key to synchronize has a slot. *)
Theorem registerKernel_returns d dk k sig inferred dbg e :
  dk <> Some DispatchKey.Undefined ->
  KernelFunction.isValid k = true ->
  (forall rec s, cpp_signature_ e = Some rec -> sig = Some s -> s = signature rec) ->
  (forall s i, schema_ e = Some s -> inferred = Some i ->
               findSchemaDifferences (schema s) i = None) ->
  kernels_ok (kernels_ e) = true ->
  slots_ok d e (keys_updated_by_register dk) = true ->
  exists e1,
    registerKernel d dk k sig inferred dbg e
    = (Ok (fresh_iterator (default [] (kernels_ e !! target_key dk))), e1)
    /\ kernels_ok (kernels_ e1) = true.
Proof.
  intros Hdk Hv Hsig Hsch Hok Hs.
  unfold registerKernel, bind.
  destruct (check_cpp_signature dk sig dbg e) as [r1 ea] eqn:E1.
  assert (H1 : r1 = Ok tt /\ kernels_ ea = kernels_ e /\ schema_ ea = schema_ e
               /\ dispatchTable_ ea = dispatchTable_ e).
  { unfold check_cpp_signature in E1.
    destruct sig as [s|]; [destruct (cpp_signature_ e) as [rec|] eqn:Er|].
    - rewrite bool_decide_eq_true_2 in E1 by (by apply (Hsig rec s)).
      by injection E1 as <- <-.
    - by injection E1 as <- <-.
    - by injection E1 as <- <-. }
  destruct H1 as (-> & Hk1 & Hs1 & Ht1).
  destruct (check_inferred_schema inferred ea) as [r2 eb] eqn:E2.
  assert (H2 : r2 = Ok tt /\ eb = ea).
  { unfold check_inferred_schema, checkSchema in E2. rewrite Hs1 in E2.
    destruct (schema_ e) as [s|] eqn:Es; [destruct inferred as [i|]|].
    - rewrite (Hsch s i) in E2 by done. by injection E2 as <- <-.
    - by injection E2 as <- <-.
    - by injection E2 as <- <-. }
  destruct H2 as [-> ->].
  unfold emplace_front. rewrite Hk1.
  set (e3 := set_kernels ea _).
  assert (Hdk' : target_key dk <> DispatchKey.Undefined).
  { destruct dk as [k0|]; simpl; [congruence|discriminate]. }
  assert (Hok3 : kernels_ok (kernels_ e3) = true) by (by apply kernels_ok_insert).
  assert (Hs3 : slots_ok d e3 (keys_updated_by_register dk) = true).
  { rewrite (slots_ok_table d e e3); [done|]. simpl. by rewrite Ht1. }
  destruct (for_each_update_total d _ e3 Hok3 Hs3) as [e1 He1].
  assert (Hupd : (match dk with
                  | Some k0 => updateDispatchTable_ d k0
                  | None => updateDispatchTableFull_ d
                  end) e3 = (Ok tt, e1)).
  { destruct dk; simpl in He1;
      [by rewrite updateDispatchTable__trace | by rewrite updateDispatchTableFull__trace]. }
  rewrite Hupd. exists e1. split; [done|].
  apply for_each_update_Ok in He1 as ((_ & _ & -> & _) & _). exact Hok3.
Qed.

(** X7. After a returning registration to a key that is among its own
    associated keys, with no two of them sharing a slot, the slot of the key
    holds the new kernel: the dispatch table points to the newest kernel. *)
Theorem registerKernel_makes_kernel_live d K k sig inferred dbg e tok e1 :
  registerKernel d (Some K) k sig inferred dbg e = (Ok tok, e1) ->
  K ∈ associated_keys K ->
  index_injective_on (associated_keys K) = true ->
  getDispatchTableIndexForDispatchKey K <> -1 ->
  live_slot e1 K = Some k.
Proof.
  intros H HK Hinj Hidx.
  apply registerKernel_steps in H as (e3 & _ & Hk3 & _ & Hupd). simpl in *.
  rewrite <- updateDispatchTable__trace in Hupd.
  rewrite (updateDispatchTable__live_slots d K e3 e1 Hupd Hinj K HK Hidx). f_equal.
  unfold precedence, rule_direct, active. by rewrite Hk3, lookup_insert_eq.
Qed.

Lemma erase_registered_roundtrip (kernels : gmap Z AnnotatedKernelContainer) dk a :
  kernels !! dk <> Some [] ->
  let l := default [] (kernels !! dk) in
  let tok := fresh_iterator l in
  let kernels1 := <[dk := (tok, a) :: l]> kernels in
  (if bool_decide (erase tok ((tok, a) :: l) = []) then delete dk kernels1
   else <[dk := erase tok ((tok, a) :: l)]> kernels1) = kernels.
Proof.
  intros Hne l tok kernels1. subst tok. rewrite erase_fresh. subst kernels1 l.
  destruct (kernels !! dk) as [l|] eqn:El; cbn [default]; case_bool_decide.
  - exfalso. apply Hne. by f_equal.
  - by rewrite insert_insert_eq, insert_id.
  - by apply delete_insert_id.
  - done.
Qed.

(** X8. A registration to a key followed by the deregistration of the
    kernel, both returning, restores the kernel map; and it restores the
    dispatch table, slot for slot, when the slots of the associated keys of
    the key were in sync with the registrations before and no two of these
    keys share a slot. *)
Theorem register_deregister_restores d K k sig inferred dbg e tok e1 e2 :
  kernels_ e !! K <> Some [] ->
  registerKernel d (Some K) k sig inferred dbg e = (Ok tok, e1) ->
  deregisterKernel_ d (Some K) tok e1 = (Ok tt, e2) ->
  kernels_ e2 = kernels_ e
  /\ (index_injective_on (associated_keys K) = true ->
      (forall k', k' ∈ associated_keys K -> getDispatchTableIndexForDispatchKey k' <> -1 ->
                  live_slot e k' = Some (kernel (fst (precedence (kernels_ e) d k')))) ->
      dispatchTable_ e2 = dispatchTable_ e).
Proof.
  intros Hne Hreg Hdereg.
  apply registerKernel_steps in Hreg as (e3 & Ht3 & Hk3 & Htok & Hupd1). simpl in *.
  apply for_each_update_Ok in Hupd1 as ((_ & _ & Hk1 & _) & Hlen1 & Hframe1 & _).
  apply deregisterKernel__steps in Hdereg as (l & e4 & Hl & _ & Ht4 & Hk4 & Hupd2).
  simpl in *. rewrite Hk1, Hk3, lookup_insert_eq in Hl. injection Hl as <-.
  assert (Hk4' : kernels_ e4 = kernels_ e).
  { rewrite Hk4, Hk1, Hk3, Htok.
    apply (erase_registered_roundtrip (kernels_ e) K (mkAnnotatedKernel k inferred dbg) Hne). }
  pose proof (for_each_update_Ok d _ _ _ Hupd2) as ((_ & _ & Hk2 & _) & Hlen2 & Hframe2 & Hsync2).
  split; [congruence|].
  intros Hinj Hin_sync.
  apply list_eq. intros i.
  destruct (decide (Exists (fun k' => getDispatchTableIndexForDispatchKey k' = Z.of_nat i)
                      (associated_keys K))) as [Hex|Hnex].
  - apply Exists_exists in Hex as (k' & Hk' & Hi).
    assert (Hm1 : getDispatchTableIndexForDispatchKey k' <> -1) by lia.
    destruct (Hsync2 k' Hk' Hm1) as (_ & kf & Hc & Hlive).
    { intros k'' Hk''. by apply (index_injective_on_spec (associated_keys K)). }
    specialize (Hin_sync k' Hk' Hm1). unfold live_slot in Hin_sync.
    rewrite Hi, Nat2Z.id in Hlive, Hin_sync. rewrite Hlive, Hin_sync. f_equal.
    apply computeDispatchTableEntry_precedence_Ok in Hc. by rewrite Hk4' in Hc.
  - assert (Hout : forall k', k' ∈ associated_keys K ->
                              getDispatchTableIndexForDispatchKey k' <> Z.of_nat i).
    { intros k' Hk' Hi. apply Hnex, Exists_exists. by exists k'. }
    rewrite (Hframe2 i Hout), Ht4, (Hframe1 i Hout). by rewrite Ht3.
Qed.

End UpdateProofs.


(** ** More of the registry *)

Section RegistryExtras.
Context `{KS : KeySets}.

(** X9. [registerSchema] followed by [deregisterSchema] returns the entry
    to the state without schema, with everything else as before except the
    tags, which stay registered; a second [deregisterSchema] fails on its
    assertion and changes nothing. *)
Theorem registerSchema_deregisterSchema sch dbg tags e e1 :
  registerSchema sch dbg tags e = (Ok tt, e1) ->
  schema_ e = None
  /\ schema_ e1 = Some (mkAnnotatedSchema sch dbg)
  /\ (exists e2, deregisterSchema e1 = (Ok tt, e2)
        /\ e2 = mkOperatorEntry (name_ e) None tags (dispatchTable_ e) (kernels_ e)
                  (cpp_signature_ e)
        /\ deregisterSchema e2 = (Err InternalAssert, e2)).
Proof.
  unfold registerSchema. case_bool_decide as Hs; [|discriminate].
  destruct (check_all_schemas _ _); [|discriminate]. intros [= <-].
  split; [done|]. split; [done|].
  eexists. split; [reflexivity|]. split; reflexivity.
Qed.

(** X10. A registration that fails the check of its inferred schema
    against the declared one leaves the kernel map, the table and the schema
    as they were; but the signature it carried has been recorded if none was
    before, since that happens ahead of the check. *)
Theorem registerKernel_schema_mismatch d dk k sig inferred dbg s e :
  schema_ e = Some s ->
  findSchemaDifferences (schema s) inferred <> None ->
  (forall rec sg, cpp_signature_ e = Some rec -> sig = Some sg -> sg = signature rec) ->
  exists e1,
    registerKernel d dk k sig (Some inferred) dbg e = (Err SchemaMismatch, e1)
    /\ kernels_ e1 = kernels_ e /\ dispatchTable_ e1 = dispatchTable_ e
    /\ schema_ e1 = schema_ e
    /\ cpp_signature_ e1
       = match cpp_signature_ e, sig with
         | None, Some sg => Some (mkCppSignatureWithDebug sg dbg dk)
         | recorded, _ => recorded
         end.
Proof.
  intros Hs Hdiff Hsig. unfold registerKernel, bind.
  destruct (check_cpp_signature dk sig dbg e) as [r1 ea] eqn:E1.
  assert (H1 : r1 = Ok tt /\ kernels_ ea = kernels_ e /\ schema_ ea = schema_ e
               /\ dispatchTable_ ea = dispatchTable_ e
               /\ cpp_signature_ ea
                  = match cpp_signature_ e, sig with
                    | None, Some sg => Some (mkCppSignatureWithDebug sg dbg dk)
                    | recorded, _ => recorded
                    end).
  { unfold check_cpp_signature in E1.
    destruct sig as [sg|]; [destruct (cpp_signature_ e) as [rec|] eqn:Er|].
    - rewrite bool_decide_eq_true_2 in E1 by (by apply (Hsig rec sg)).
      injection E1 as <- <-. by rewrite Er.
    - by injection E1 as <- <-.
    - injection E1 as <- <-. by destruct (cpp_signature_ e). }
  destruct H1 as (-> & Hk & Hsc & Ht & Hc).
  unfold check_inferred_schema, checkSchema. rewrite Hsc, Hs.
  destruct (findSchemaDifferences (schema s) inferred); [|done].
  exists ea. by rewrite Hs in Hsc.
Qed.

(** The kernel map a registration leaves, whether it returns or throws: the
    map as it was, or the map with the new kernel at the front of its key. *)
Lemma registerKernel_kernels_cases d dk k sig inferred dbg e :
  let l := default [] (kernels_ e !! target_key dk) in
  kernels_ (snd (registerKernel d dk k sig inferred dbg e)) = kernels_ e
  \/ kernels_ (snd (registerKernel d dk k sig inferred dbg e))
     = <[target_key dk := (fresh_iterator l, mkAnnotatedKernel k inferred dbg) :: l]>
         (kernels_ e).
Proof.
  intros l. unfold registerKernel. rewrite bind_snd.
  pose proof (check_cpp_signature_kernels dk sig dbg e) as Hk1.
  destruct (fst (check_cpp_signature dk sig dbg e)); [|by left].
  rewrite bind_snd, check_inferred_schema_state.
  destruct (fst (check_inferred_schema inferred _)); [|by left].
  rewrite bind_snd. cbn [emplace_front fst snd].
  rewrite bind_snd.
  set (e3 := set_kernels _ _).
  pose proof (table_only_update_after_register d dk e3) as (_ & _ & Hk3 & _).
  right.
  destruct (fst _); cbn [ret snd]; rewrite ?Hk3; subst e3 l; cbn [set_kernels kernels_];
    by rewrite Hk1.
Qed.

(** X11. A call changes the list of at most one key: the key of a
    registration or deregistration (the implicit-backend alias when no key
    is given); the lists of all other keys, and with them the answers of
    [getKernelForDispatchKey], are as before, whether the call returns or
    throws. *)
Theorem other_keys_untouched d c e K :
  call_target c <> Some K ->
  kernels_ (perform d c e) !! K = kernels_ e !! K
  /\ getKernelForDispatchKey (perform d c e) K = getKernelForDispatchKey e K.
Proof.
  intros Hc.
  assert (Hl : kernels_ (perform d c e) !! K = kernels_ e !! K).
  { destruct c as [sch dbg tags| |dk k sig inferred dbg|dk it|dk]; simpl in *.
    - unfold registerSchema. by repeat case_match.
    - unfold deregisterSchema. by repeat case_match.
    - destruct (registerKernel_kernels_cases d dk k sig inferred dbg e) as [-> | ->]; [done|].
      apply lookup_insert_ne. congruence.
    - unfold deregisterKernel_. rewrite bind_snd.
      assert (He : kernels_ (snd (erase_registered (target_key dk) it e)) !! K
                   = kernels_ e !! K).
      { unfold erase_registered. repeat case_match; simpl; try done.
        - apply lookup_delete_ne. congruence.
        - apply lookup_insert_ne. congruence. }
      destruct (fst (erase_registered (target_key dk) it e)); [|done].
      by destruct (table_only_updateDispatchTable_ d (target_key dk)
                     (snd (erase_registered (target_key dk) it e))) as (_ & _ & -> & _).
    - unfold updateFallback.
      by destruct (table_only_updateDispatchTable_ d dk e) as (_ & _ & -> & _). }
  split; [done|]. unfold getKernelForDispatchKey. by rewrite Hl.
Qed.


(** X12. A registration without key that returns has put its kernel at
    the front of the list of [CompositeImplicitAutograd] and touched no other
    key, [Undefined] included; the kernel is what [getKernelForDispatchKey]
    gives for that alias when it is valid, and its deregistration without
    key restores the kernel map. *)
Theorem catch_all_registration d k sig inferred dbg e tok e1 :
  registerKernel d None k sig inferred dbg e = (Ok tok, e1) ->
  active (kernels_ e1) DispatchKey.CompositeImplicitAutograd
  = Some (mkAnnotatedKernel k inferred dbg)
  /\ (forall K, K <> DispatchKey.CompositeImplicitAutograd ->
                kernels_ e1 !! K = kernels_ e !! K)
  /\ (KernelFunction.isValid k = true ->
      getKernelForDispatchKey e1 DispatchKey.CompositeImplicitAutograd
      = Ok (Some (mkAnnotatedKernel k inferred dbg)))
  /\ (kernels_ e !! DispatchKey.CompositeImplicitAutograd <> Some [] ->
      kernels_ (snd (deregisterKernel_ d None tok e1)) = kernels_ e).
Proof.
  intros H. apply registerKernel_Ok in H as (Htok & Hk1 & _). simpl in Htok, Hk1.
  split; [unfold active; by rewrite Hk1, lookup_insert_eq|].
  split; [intros K HK; by rewrite Hk1, lookup_insert_ne|].
  split.
  - intros Hv. unfold getKernelForDispatchKey. rewrite Hk1, lookup_insert_eq. simpl.
    by rewrite Hv.
  - intros Hne.
    rewrite (deregisterKernel__kernels_after_register d None tok
               (mkAnnotatedKernel k inferred dbg)
               (default [] (kernels_ e !! DispatchKey.CompositeImplicitAutograd)) e1 Htok)
      by (simpl; by rewrite Hk1, lookup_insert_eq).
    cbn [target_key]. rewrite Hk1, Htok.
    pose proof (erase_registered_roundtrip (kernels_ e) DispatchKey.CompositeImplicitAutograd
                  (mkAnnotatedKernel k inferred dbg) Hne) as Hrt.
    cbv zeta in Hrt. rewrite erase_fresh in Hrt. exact Hrt.
Qed.

Lemma elem_of_map_fst_erase it (l : AnnotatedKernelContainer) n :
  n ∈ map fst (erase it l) -> n ∈ map fst l.
Proof.
  unfold erase. induction l as [|x l IH]; simpl; [done|].
  rewrite filter_cons. case_decide; simpl.
  - intros [->|Hn]%elem_of_cons; [by left | right; by apply IH].
  - intros Hn. right. by apply IH.
Qed.

Lemma NoDup_map_fst_erase it (l : AnnotatedKernelContainer) :
  NoDup (map fst l) -> NoDup (map fst (erase it l)).
Proof.
  induction l as [|x l IH]; simpl; [done|].
  intros [Hx Hl]%NoDup_cons. unfold erase in *. rewrite filter_cons.
  case_decide; simpl; [|by apply IH].
  apply NoDup_cons. split; [|by apply IH].
  intros Hin. by apply Hx, (elem_of_map_fst_erase it).
Qed.

Lemma erase_absent it (l : AnnotatedKernelContainer) :
  it ∉ map fst l -> erase it l = l.
Proof.
  unfold erase. induction l as [|x l IH]; simpl; [done|].
  intros Hn. rewrite filter_cons_True.
  - rewrite IH; [done|]. intros Hin. apply Hn. by right.
  - simpl. intros Heq. apply Hn. rewrite <- Heq. by left.
Qed.

Lemma erase_exact it a (l1 l2 : AnnotatedKernelContainer) :
  NoDup (map fst (l1 ++ (it, a) :: l2)) -> erase it (l1 ++ (it, a) :: l2) = l1 ++ l2.
Proof.
  rewrite map_app. simpl. intros (H1 & Hdisj & H2)%NoDup_app.
  apply NoDup_cons in H2 as [Hn2 _].
  assert (Hn1 : it ∉ map fst l1).
  { intros Hin. apply (Hdisj it Hin). by left. }
  unfold erase. rewrite filter_app, filter_cons_False by (simpl; intros Hx; by apply Hx).
  fold (erase it l1). fold (erase it l2).
  by rewrite !erase_absent.
Qed.

Lemma emplace_front_iterators_distinct dk a : keeps iterators_distinct (emplace_front dk a).
Proof.
  intros e He k l. unfold emplace_front. simpl.
  rewrite lookup_insert. case_decide; [|apply He].
  intros [= <-]. simpl. apply NoDup_cons. split.
  - intros Hin. apply list_elem_of_In, in_map_iff in Hin as (n & Hn & Hin).
    apply list_elem_of_In, fresh_iterator_above in Hin. lia.
  - destruct (kernels_ e !! dk) as [l0|] eqn:El; simpl; [by apply (He dk) | constructor].
Qed.

Lemma erase_registered_iterators_distinct dk it :
  keeps iterators_distinct (erase_registered dk it).
Proof.
  intros e He. unfold erase_registered, iterators_distinct in *.
  destruct (kernels_ e !! dk) as [l0|] eqn:El; [|done].
  case_bool_decide; [|done]. case_bool_decide; simpl; intros k l.
  - rewrite lookup_delete. case_decide; [done | apply He].
  - rewrite lookup_insert. case_decide; [|apply He].
    intros [= <-]. apply NoDup_map_fst_erase. by apply (He dk).
Qed.

Lemma iterators_distinct_kernels e e' :
  kernels_ e' = kernels_ e -> iterators_distinct e -> iterators_distinct e'.
Proof. unfold iterators_distinct. by intros ->. Qed.

Lemma perform_iterators_distinct d c e :
  iterators_distinct e -> iterators_distinct (perform d c e).
Proof.
  destruct c as [sch dbg tags| |dk k sig inferred dbg|dk it|dk]; simpl.
  - unfold registerSchema. by repeat case_match.
  - unfold deregisterSchema. by repeat case_match.
  - apply registerKernel_keeps;
      [apply iterators_distinct_kernels | apply emplace_front_iterators_distinct].
  - apply deregisterKernel__keeps;
      [apply iterators_distinct_kernels | apply erase_registered_iterators_distinct].
  - apply keeps_same_registry_kernels;
      [apply iterators_distinct_kernels | apply table_only_updateDispatchTable_].
Qed.

Lemma reachable_iterators_distinct d name cs :
  iterators_distinct (perform_all d cs (snd (OperatorEntry_new d name))).
Proof.
  assert (H0 : iterators_distinct (snd (OperatorEntry_new d name))).
  { intros k l. by rewrite OperatorEntry_new_kernels, lookup_empty. }
  revert H0. generalize (snd (OperatorEntry_new d name)).
  induction cs as [|c cs IH]; intros e He; simpl; [done|].
  by apply IH, perform_iterators_distinct.
Qed.

(** The kernel map a deregistration leaves when the key has a list and the
    iterator is in it, whatever the table update that follows does. *)
Lemma deregisterKernel__kernels d dk it l e :
  kernels_ e !! target_key dk = Some l -> it ∈ map fst l ->
  kernels_ (snd (deregisterKernel_ d dk it e))
  = if bool_decide (erase it l = []) then delete (target_key dk) (kernels_ e)
    else <[target_key dk := erase it l]> (kernels_ e).
Proof.
  intros Hl Hit. unfold deregisterKernel_. rewrite bind_snd.
  unfold erase_registered at 1 2. rewrite Hl, (bool_decide_eq_true_2 _ Hit).
  match goal with
  | |- kernels_ match fst ?p with _ => _ end = _ =>
      assert (Hp : fst p = Ok tt /\ kernels_ (snd p) =
                     if bool_decide (erase it l = []) then delete (target_key dk) (kernels_ e)
                     else <[target_key dk := erase it l]> (kernels_ e))
        by (case_bool_decide; done);
      destruct Hp as [Hp1 Hp2]; rewrite Hp1
  end.
  match goal with
  | |- kernels_ (snd (updateDispatchTable_ d ?k ?e0)) = _ =>
      destruct (table_only_updateDispatchTable_ d k e0) as (_ & _ & -> & _)
  end.
  exact Hp2.
Qed.

(** X13. In every state the calls lead to from the constructor, the
    iterators of a list are distinct, so a deregistration removes exactly
    the node of its iterator and keeps the others in their order; when that
    node is not the front one, the active kernel of the key stays. *)
Theorem deregistration_removes_exactly_one d name cs dk it a l1 l2 :
  let e := perform_all d cs (snd (OperatorEntry_new d name)) in
  kernels_ e !! target_key dk = Some (l1 ++ (it, a) :: l2) ->
  kernels_ (snd (deregisterKernel_ d dk it e))
  = (if bool_decide (l1 ++ l2 = []) then delete (target_key dk) (kernels_ e)
     else <[target_key dk := l1 ++ l2]> (kernels_ e))
  /\ (l1 <> [] ->
      active (kernels_ (snd (deregisterKernel_ d dk it e))) (target_key dk)
      = active (kernels_ e) (target_key dk)).
Proof.
  intros e Hl.
  pose proof (reachable_iterators_distinct d name cs _ _ Hl) as Hnd.
  assert (Hit : it ∈ map fst (l1 ++ (it, a) :: l2)).
  { rewrite map_app. apply elem_of_app. right. by left. }
  rewrite (deregisterKernel__kernels d dk it _ e Hl Hit), (erase_exact it a l1 l2 Hnd).
  split; [done|].
  intros Hne. rewrite bool_decide_eq_false_2 by (by destruct l1).
  unfold active. rewrite lookup_insert_eq, Hl. by destruct l1.
Qed.

(** X14. A deregistration for a key that has no list fails on its
    assertion and changes nothing; so, after the registration of the first
    kernel of a key and its deregistration, a second deregistration with the
    same iterator fails. *)
Theorem deregisterKernel__twice d dk k sig inferred dbg e tok e1 e2 :
  kernels_ e !! target_key dk = None ->
  registerKernel d dk k sig inferred dbg e = (Ok tok, e1) ->
  deregisterKernel_ d dk tok e1 = (Ok tt, e2) ->
  kernels_ e2 !! target_key dk = None
  /\ deregisterKernel_ d dk tok e2 = (Err InternalAssert, e2).
Proof.
  intros Hnone Hreg Hdereg.
  apply registerKernel_Ok in Hreg as (Htok & Hk1 & _). simpl in Htok, Hk1.
  rewrite Hnone in Htok, Hk1. simpl in Htok, Hk1.
  assert (Hl1 : kernels_ e1 !! target_key dk
                = Some [(tok, mkAnnotatedKernel k inferred dbg)])
    by (by rewrite Hk1, lookup_insert_eq).
  pose proof (deregisterKernel__kernels_after_register d dk tok _ [] e1 Htok Hl1) as Hk2.
  rewrite Hdereg in Hk2. simpl in Hk2.
  assert (Hnone2 : kernels_ e2 !! target_key dk = None)
    by (by rewrite Hk2, lookup_delete_eq).
  split; [done|].
  unfold deregisterKernel_, bind, erase_registered. by rewrite Hnone2.
Qed.


Lemma checkInvariants_nonempty (kernels : gmap Z AnnotatedKernelContainer) :
  forallb (fun kv => negb (bool_decide (snd kv = []))) (map_to_list kernels) = true ->
  forall k l, kernels !! k = Some l -> l <> [].
Proof.
  rewrite forallb_forall. intros Hne k l Hl ->.
  specialize (Hne (k, []) (proj1 (list_elem_of_In _ _)
                             (proj2 (elem_of_map_to_list _ _ _) Hl))).
  by vm_compute in Hne.
Qed.

(** X15. When [checkInvariants] returns, the registered schema carries the
    name of the entry, the kernel map has no list for [Undefined] and no
    empty list, and for every key of [FULL] that has a slot the computation
    of its entry returns a kernel with the same boxed and unboxed functions
    as the one in the slot. *)
Theorem checkInvariants_sound d e :
  checkInvariants d e = Ok tt ->
  (forall s, schema_ e = Some s -> operator_name (schema s) = name_ e)
  /\ no_undefined e
  /\ no_empty_list e
  /\ (forall k, k ∈ keys_of FULL -> getDispatchTableIndexForDispatchKey k <> -1 ->
        exists expected live,
          computeDispatchTableEntry e d k = Ok expected
          /\ live_slot e k = Some live
          /\ KernelFunction._equalsBoxedAndUnboxed expected live = true).
Proof.
  unfold checkInvariants, Result_bind. intros H.
  destruct (match schema_ e with Some _ => _ | None => _ end) as [[]|] eqn:E0;
    [|discriminate].
  assert (Hs : forall s, schema_ e = Some s -> operator_name (schema s) = name_ e).
  { intros s Es. rewrite Es in E0.
    destruct (decide (operator_name (schema s) = name_ e)) as [Hn|Hn]; [done|].
    by rewrite bool_decide_eq_false_2 in E0. }
  clear E0.
  case_bool_decide as Hu; [|discriminate].
  destruct (forallb _ _) eqn:Hne; [|discriminate].
  split; [done|]. split; [done|].
  split; [unfold no_empty_list; by apply checkInvariants_nonempty|].
  revert H. generalize (keys_of FULL). intros ks.
  induction ks as [|a ks IH]; intros Hloop k Hk Hidx; [by apply elem_of_nil in Hk|].
  destruct (computeDispatchTableEntry e d a) as [expected|] eqn:Ec; [|discriminate].
  destruct (getDispatchTableIndexForDispatchKey a =? -1) eqn:E1.
  { apply elem_of_cons in Hk as [->|Hk]; [apply Z.eqb_eq in E1; done|by apply IH]. }
  destruct (getDispatchTableIndexForDispatchKey a <? 0) eqn:E2; [discriminate|].
  destruct (dispatchTable_ e !! _) as [live|] eqn:El; [|discriminate].
  destruct (KernelFunction._equalsBoxedAndUnboxed expected live) eqn:Eq; [|discriminate].
  apply elem_of_cons in Hk as [->|Hk]; [|by apply IH].
  by exists expected, live.
Qed.

(** X16. The two existence queries fail on their assertion when
    [Undefined] has a list. Otherwise [hasKernelForDispatchKey] tells whether
    the key has a list, alias keys included, and
    [hasKernelForAnyDispatchKey] tells whether some key that is not an alias
    has a list and is in the set: a kernel registered to an alias never
    counts for it. *)
Theorem existence_queries e :
  (kernels_ e !! DispatchKey.Undefined <> None ->
   forall k ks, hasKernelForDispatchKey e k = Err InternalAssert
                /\ hasKernelForAnyDispatchKey e ks = Err InternalAssert)
  /\ (kernels_ e !! DispatchKey.Undefined = None ->
      forall k ks,
        hasKernelForDispatchKey e k = Ok (bool_decide (is_Some (kernels_ e !! k)))
        /\ exists b, hasKernelForAnyDispatchKey e ks = Ok b
                     /\ (b = true <->
                         exists k' l, kernels_ e !! k' = Some l
                                      /\ isAliasDispatchKey k' = false
                                      /\ has ks k' = true)).
Proof.
  split; intros Hu k ks.
  - unfold hasKernelForDispatchKey, hasKernelForAnyDispatchKey.
    by rewrite bool_decide_eq_false_2.
  - unfold hasKernelForDispatchKey, hasKernelForAnyDispatchKey.
    rewrite bool_decide_eq_true_2 by done. split.
    + by rewrite existsb_key_registered_at.
    + eexists. split; [reflexivity|].
      rewrite existsb_exists. split.
      * intros ([k' l] & Hin%list_elem_of_In%elem_of_map_to_list & Hb). simpl in Hb.
        apply andb_true_iff in Hb as [Ha%negb_true_iff Hh]. by exists k', l.
      * intros (k' & l & Hl & Ha & Hh). exists (k', l). split.
        -- by apply list_elem_of_In, elem_of_map_to_list.
        -- simpl. by rewrite Ha, Hh.
Qed.


(** X17. The backend fallback is consulted last: when the registrations
    decide the entry of a key, [computeDispatchTableEntryWithDebug] returns
    that entry for every dispatcher, whatever its fallback table holds, even
    when the key has no slot in it. *)
Theorem fallback_consulted_last e K r :
  kernels_ok (kernels_ e) = true ->
  decided_by_registrations (kernels_ e) K = Some r ->
  forall d, computeDispatchTableEntryWithDebug e d K = Ok r.
Proof.
  intros Hok Hdec d.
  assert (Hex : exists r', computeDispatchTableEntryWithDebug e d K = Ok r').
  { revert Hdec.
    unfold computeDispatchTableEntryWithDebug, alias_registration, orelse, andalso, Result_bind.
    rewrite !(getKernelForDispatchKey_total _ _ Hok),
      !(hasKernelForAnyDispatchKey_total _ _ Hok), !(hasKernelForDispatchKey_total _ _ Hok).
    unfold decided_by_registrations, rule_direct, rule_explicit_nonfunctional, rule_explicit,
      rule_ambiguous, rule_implicit, rule_autograd, alias_applies, has_backend_kernel, labelled.
    simpl.
    destruct (active (kernels_ e) K); [by eauto|].
    destruct ((K =? DispatchKey.Undefined)
              || isIncludedInAlias K DispatchKey.CompositeExplicitAutogradNonFunctional);
      [destruct (active (kernels_ e) DispatchKey.CompositeExplicitAutogradNonFunctional);
       [by eauto|]|];
    (destruct ((K =? DispatchKey.Undefined)
               || isIncludedInAlias K DispatchKey.CompositeExplicitAutograd);
     [destruct (active (kernels_ e) DispatchKey.CompositeExplicitAutograd);
      [by eauto|]|]);
    simpl;
    destruct (registered_in (kernels_ e) (getBackendKeySetFromAutograd K));
    destruct (registered_at (kernels_ e) DispatchKey.CompositeExplicitAutograd);
    destruct ((K =? DispatchKey.Undefined)
              || isIncludedInAlias K DispatchKey.CompositeImplicitAutograd);
    destruct (active (kernels_ e) DispatchKey.CompositeImplicitAutograd);
    destruct (K =? DispatchKey.AutogradOther);
    destruct (registered_in (kernels_ e) autogradother_backends);
    simpl; rewrite ?bool_decide_eq_true_2 by eauto;
    rewrite ?bool_decide_eq_false_2 by (by intros [? ?]); simpl; try (by eauto);
    destruct (isIncludedInAlias K DispatchKey.Autograd);
    destruct (active (kernels_ e) DispatchKey.Autograd); simpl; try (by eauto);
    discriminate. }
  destruct Hex as [r' Hr']. rewrite Hr'. f_equal.
  apply computeDispatchTableEntryWithDebug_sound in Hr'. subst r'.
  revert Hdec. unfold decided_by_registrations, precedence. simpl.
  destruct (rule_direct _ _); simpl; [congruence|].
  destruct (rule_explicit_nonfunctional _ _); simpl; [congruence|].
  destruct (rule_explicit _ _); simpl; [congruence|].
  destruct (rule_ambiguous _ _); simpl; [congruence|].
  destruct (rule_implicit _ _); simpl; [congruence|].
  destruct (rule_autograd _ _); simpl; [congruence|discriminate].
Qed.

End RegistryExtras.

(** ** The listings *)

Section DumpProofs.
Context `{KS : KeySets}.
Variable toString : DispatchKey -> string.

Lemma string_app_assoc (a b c : string) : ((a ++ b) ++ c = a ++ (b ++ c))%string.
Proof. induction a as [|x a IH]; [reflexivity|exact (f_equal (String x) IH)]. Qed.

Lemma string_app_nil_r (a : string) : (a ++ "" = a)%string.
Proof. induction a as [|x a IH]; [reflexivity|exact (f_equal (String x) IH)]. Qed.

Lemma listAllDispatchKeys_loop_Ok e ks has_kernels str :
  slots_in_table e ks = true ->
  listAllDispatchKeys_loop toString e ks has_kernels str
  = Ok (str ++ (match List.filter (has_valid_slot e) ks with
                | [] => ""
                | _ :: _ => if has_kernels then ", " else ""
                end)
            ++ String.concat ", "
                 (map (fun k => toString (to_uint16 (getDispatchTableIndexForDispatchKey k)))
                      (List.filter (has_valid_slot e) ks)))%string.
Proof.
  revert has_kernels str. induction ks as [|k ks IH]; intros has_kernels str Hs.
  - simpl. by rewrite string_app_nil_r.
  - simpl in Hs. apply andb_true_iff in Hs as [Hk Hs].
    cbn [listAllDispatchKeys_loop List.filter]. cbv zeta.
    destruct (getDispatchTableIndexForDispatchKey k =? -1) eqn:E1.
    { assert (has_valid_slot e k = false) as ->
        by (unfold has_valid_slot; by rewrite E1).
      by apply IH. }
    simpl in Hk. apply andb_true_iff in Hk as [H0 Hl].
    apply Z.leb_le in H0. apply Z.ltb_lt in Hl.
    destruct (getDispatchTableIndexForDispatchKey k <? 0) eqn:E2; [apply Z.ltb_lt in E2; lia|].
    destruct (lookup_lt_is_Some_2 (dispatchTable_ e)
                (Z.to_nat (getDispatchTableIndexForDispatchKey k)) ltac:(lia)) as [slot Hslot].
    rewrite Hslot.
    assert (has_valid_slot e k = KernelFunction.isValid slot) as ->
      by (unfold has_valid_slot; by rewrite E1, Hslot).
    destruct (KernelFunction.isValid slot); cbn [negb]; [|by apply IH].
    rewrite (IH _ _ Hs). f_equal.
    destruct (List.filter (has_valid_slot e) ks) as [|k' l'] eqn:El; simpl.
    + destruct has_kernels; rewrite ?string_app_nil_r, ?string_app_assoc; reflexivity.
    + destruct has_kernels; rewrite ?string_app_assoc; reflexivity.
Qed.

(** X18. [listAllDispatchKeys] prints, between brackets and separated by
    commas, one name for each functionality key whose table slot holds a
    valid kernel, in the order of the key set; the name printed is that of
    the key whose number is the table index of the slot. *)
Theorem listAllDispatchKeys_lists_valid_slots e :
  slots_in_table e (keys_of FULL) = true ->
  listAllDispatchKeys toString e
  = Ok ("[" ++ String.concat ", "
                 (map (fun k => toString (to_uint16 (getDispatchTableIndexForDispatchKey k)))
                      (List.filter (has_valid_slot e) (keys_of FULL)))
            ++ "]")%string.
Proof.
  intros Hs. unfold listAllDispatchKeys. rewrite (listAllDispatchKeys_loop_Ok _ _ _ _ Hs).
  simpl. rewrite string_app_assoc. by destruct (List.filter _ _).
Qed.

Lemma dumpComputedTable_loop_Ok d e ks oss :
  kernels_ok (kernels_ e) = true ->
  forallb (fallback_slot_ok d) ks = true ->
  dumpComputedTable_loop toString d e ks oss
  = Ok (oss ++ foldr String.append ""
                 (map (fun k => table_line toString k (precedence (kernels_ e) d k))
                      (List.filter
                         (fun k => KernelFunction.isValid
                                     (kernel (fst (precedence (kernels_ e) d k)))) ks)))%string.
Proof.
  intros Hok. revert oss. induction ks as [|k ks IH]; intros oss Hs.
  - simpl. by rewrite string_app_nil_r.
  - simpl in Hs. apply andb_true_iff in Hs as [Hk Hs].
    cbn [dumpComputedTable_loop List.filter].
    rewrite (computeDispatchTableEntryWithDebug_total _ _ _ Hok Hk). simpl.
    destruct (KernelFunction.isValid _); [|by apply IH].
    rewrite (IH _ Hs). simpl. f_equal. unfold table_line.
    by rewrite !string_app_assoc.
Qed.

(** X19. [dumpComputedTable] writes one line for Undefined and each
    functionality key whose recomputed entry is a valid kernel, in that
    order, with the name of the key, the debug text of the kernel and the
    label of the precedence rule that chose it; it reads the registrations
    and the fallbacks, never the live table. *)
Theorem dumpComputedTable_lines d e :
  kernels_ok (kernels_ e) = true ->
  forallb (fallback_slot_ok d) (DispatchKey.Undefined :: keys_of FULL) = true ->
  forall table,
    dumpComputedTable toString d (set_dispatchTable e table)
    = Ok (foldr String.append ""
            (map (fun k => table_line toString k (precedence (kernels_ e) d k))
               (List.filter
                  (fun k => KernelFunction.isValid (kernel (fst (precedence (kernels_ e) d k))))
                  (DispatchKey.Undefined :: keys_of FULL)))).
Proof.
  intros Hok Hs table. unfold dumpComputedTable.
  by rewrite (dumpComputedTable_loop_Ok d (set_dispatchTable e table) _ "" Hok Hs).
Qed.

End DumpProofs.

(** ** The further properties on concrete entries *)

Lemma functionality_backend_roundtrip_witness :
  toFunctionalityKey
    (toRuntimePerBackendFunctionalityKey DispatchKey.AutogradFunctionality
       BackendComponent.XLABit) = DispatchKey.AutogradFunctionality
  /\ toRuntimePerBackendFunctionalityKey DispatchKey.AutogradFunctionality
       BackendComponent.XLABit = DispatchKey.AutogradXLA.
Proof.
  destruct (functionality_backend_roundtrip DispatchKey.AutogradFunctionality
              BackendComponent.XLABit) as (_ & H & _).
  - reflexivity.
  - unfold BackendComponent.XLABit, BackendComponent.EndOfBackendKeys,
      BackendComponent.PrivateUse3Bit. lia.
  - split; [exact H | reflexivity].
Defined.

Lemma decomposition_outside_per_backend_ranges_witness :
  toFunctionalityKey DispatchKey.CompositeImplicitAutograd = DispatchKey.Undefined
  /\ toBackendComponent DispatchKey.CompositeImplicitAutograd = BackendComponent.InvalidBit.
Proof.
  assert (Hk : is_uint16 DispatchKey.CompositeImplicitAutograd)
    by (unfold is_uint16, DispatchKey.CompositeImplicitAutograd; lia).
  destruct (decomposition_outside_per_backend_ranges _ Hk) as (_ & H & _).
  apply H.
  unfold DispatchKey.CompositeImplicitAutograd, DispatchKey.EndOfRuntimeBackendKeys,
    DispatchKey.EndOfAutogradBackends, DispatchKey.AutogradPrivateUse3. lia.
Defined.

(** A resynchronisation of [CPU] on the entry with the composite kernel
    alone. *)
Lemma updateDispatchTable__synchronizes_witness :
  let e := Scenario.composite in
  let e' := snd (updateDispatchTable_ Scenario.dispatcher DispatchKey.CPU e) in
  same_registry e e'
  /\ live_slot e' DispatchKey.AutogradCPU = Some Scenario.K_math.
Proof.
  intros e e'.
  assert (H : updateDispatchTable_ Scenario.dispatcher DispatchKey.CPU e = (Ok tt, e'))
    by (vm_compute; reflexivity).
  destruct (updateDispatchTable__synchronizes _ _ _ _ H) as (H1 & _ & _ & H4).
  split; [exact H1|].
  rewrite (H4 ltac:(vm_compute; reflexivity) DispatchKey.AutogradCPU).
  - vm_compute. reflexivity.
  - apply list_elem_of_In. vm_compute. tauto.
  - vm_compute. discriminate.
Defined.

(** A full update repairs the entry whose table went stale. *)
Lemma updateDispatchTableFull__synchronizes_witness :
  let e := Scenario.composite_explicit in
  let e' := snd (updateDispatchTableFull_ Scenario.dispatcher e) in
  checkInvariants Scenario.dispatcher e = Err InternalAssert
  /\ same_registry e e' /\ table_in_sync Scenario.dispatcher e'.
Proof.
  intros e e'. split; [vm_compute; reflexivity|].
  apply (updateDispatchTableFull__synchronizes Scenario.dispatcher e e');
    vm_compute; reflexivity.
Defined.


Lemma registerKernel_returns_witness :
  exists e1,
    registerKernel Scenario.dispatcher (Some DispatchKey.CPU) Scenario.K_cpu None None "cpu"
      Scenario.composite = (Ok 1%nat, e1)
    /\ kernels_ok (kernels_ e1) = true.
Proof.
  apply (registerKernel_returns Scenario.dispatcher (Some DispatchKey.CPU) Scenario.K_cpu
           None None "cpu" Scenario.composite).
  - vm_compute. discriminate.
  - vm_compute. reflexivity.
  - intros rec s _ Hs. discriminate Hs.
  - intros s i _ Hi. discriminate Hi.
  - vm_compute. reflexivity.
  - vm_compute. reflexivity.
Defined.

Lemma registerKernel_makes_kernel_live_witness :
  live_slot Scenario.composite_cpu DispatchKey.CPU = Some Scenario.K_cpu.
Proof.
  apply (registerKernel_makes_kernel_live Scenario.dispatcher DispatchKey.CPU Scenario.K_cpu
           None None "cpu" Scenario.composite 1%nat Scenario.composite_cpu).
  - vm_compute. reflexivity.
  - apply list_elem_of_In. vm_compute. tauto.
  - vm_compute. reflexivity.
  - vm_compute. discriminate.
Defined.

Lemma register_deregister_restores_witness :
  let e2 := snd (deregisterKernel_ Scenario.dispatcher (Some DispatchKey.CPU) 1%nat
                   Scenario.composite_cpu) in
  kernels_ e2 = kernels_ Scenario.composite
  /\ dispatchTable_ e2 = dispatchTable_ Scenario.composite.
Proof.
  intros e2.
  destruct (register_deregister_restores Scenario.dispatcher DispatchKey.CPU Scenario.K_cpu
              None None "cpu" Scenario.composite 1%nat Scenario.composite_cpu e2)
    as [H1 H2].
  - vm_compute. discriminate.
  - vm_compute. reflexivity.
  - vm_compute. reflexivity.
  - split; [exact H1|]. apply H2; [vm_compute; reflexivity|].
    intros k' Hk' _. apply list_elem_of_In in Hk'. vm_compute in Hk'.
    repeat (destruct Hk' as [<-|Hk']; [vm_compute; reflexivity|]). destruct Hk'.
Defined.

Lemma registerSchema_deregisterSchema_witness :
  let e1 := snd (registerSchema Scenario.schema_a "def" [1]
                   Scenario.composite) in
  let e2 := snd (deregisterSchema e1) in
  schema_ e1 = Some (mkAnnotatedSchema Scenario.schema_a "def")
  /\ schema_ e2 = None /\ tags_ e2 = [1]
  /\ deregisterSchema e2 = (Err InternalAssert, e2).
Proof.
  intros e1 e2.
  destruct (registerSchema_deregisterSchema Scenario.schema_a "def" [1]
              Scenario.composite e1) as (_ & H1 & e2' & H2 & H3 & H4);
    [vm_compute; reflexivity|].
  assert (He2 : e2' = e2) by (unfold e2; by rewrite H2).
  rewrite He2 in H3, H4.
  split; [exact H1|]. split; [by rewrite H3|]. split; [by rewrite H3|]. exact H4.
Defined.

(** On an entry with a declared schema and no recorded signature, a
    registration with another inferred schema fails and still records its
    signature. *)
Lemma registerKernel_schema_mismatch_witness :
  let e := snd (registerSchema Scenario.schema_a "def" [] Scenario.fresh) in
  exists e1,
    registerKernel Scenario.dispatcher (Some DispatchKey.CPU) Scenario.K_cpu
      (Some "Tensor (Tensor, Tensor)"%string) (Some Scenario.schema_b) "cpu" e
    = (Err SchemaMismatch, e1)
    /\ kernels_ e1 = ∅
    /\ cpp_signature_ e1
       = Some (mkCppSignatureWithDebug "Tensor (Tensor, Tensor)" "cpu" (Some DispatchKey.CPU)).
Proof.
  intros e.
  destruct (registerKernel_schema_mismatch Scenario.dispatcher (Some DispatchKey.CPU)
              Scenario.K_cpu (Some "Tensor (Tensor, Tensor)"%string) Scenario.schema_b "cpu"
              (mkAnnotatedSchema Scenario.schema_a "def") e)
    as (e1 & H1 & H2 & _ & _ & H5).
  - vm_compute. reflexivity.
  - vm_compute. discriminate.
  - intros rec sg Hrec. vm_compute in Hrec. discriminate Hrec.
  - exists e1. split; [exact H1|]. split; [by rewrite H2|exact H5].
Defined.

Lemma other_keys_untouched_witness :
  kernels_ Scenario.composite_cpu !! DispatchKey.CompositeImplicitAutograd
  = kernels_ Scenario.composite !! DispatchKey.CompositeImplicitAutograd.
Proof.
  apply (other_keys_untouched Scenario.dispatcher
           (Scenario.register DispatchKey.CPU Scenario.K_cpu "cpu") Scenario.composite
           DispatchKey.CompositeImplicitAutograd).
  vm_compute. discriminate.
Defined.

Lemma catch_all_registration_witness :
  let r := registerKernel Scenario.dispatcher None Scenario.K_math None None "math"
             Scenario.fresh in
  kernels_ (snd r) !! DispatchKey.Undefined = None
  /\ getKernelForDispatchKey (snd r) DispatchKey.CompositeImplicitAutograd
     = Ok (Some (mkAnnotatedKernel Scenario.K_math None "math"))
  /\ kernels_ (snd (deregisterKernel_ Scenario.dispatcher None 1%nat (snd r))) = ∅.
Proof.
  intros r.
  destruct (catch_all_registration Scenario.dispatcher Scenario.K_math None None "math"
              Scenario.fresh 1%nat (snd r)) as (_ & H2 & H3 & H4);
    [vm_compute; reflexivity|].
  split; [by rewrite H2|]. split; [apply H3; vm_compute; reflexivity|].
  rewrite H4; [vm_compute; reflexivity|vm_compute; discriminate].
Defined.

(** Two kernels for [CPU]; the older one is deregistered first. *)
Lemma deregistration_removes_exactly_one_witness :
  let e := perform_all Scenario.dispatcher
             [Scenario.register DispatchKey.CPU Scenario.K_cpu "cpu";
              Scenario.register DispatchKey.CPU Scenario.K_explicit "cpu2"]
             (snd (OperatorEntry_new Scenario.dispatcher "aten::op")) in
  let e' := snd (deregisterKernel_ Scenario.dispatcher (Some DispatchKey.CPU) 1%nat e) in
  kernels_ e' !! DispatchKey.CPU
  = Some [(2%nat, mkAnnotatedKernel Scenario.K_explicit None "cpu2")]
  /\ active (kernels_ e') DispatchKey.CPU = active (kernels_ e) DispatchKey.CPU.
Proof.
  intros e e'.
  destruct (deregistration_removes_exactly_one Scenario.dispatcher "aten::op"
              [Scenario.register DispatchKey.CPU Scenario.K_cpu "cpu";
               Scenario.register DispatchKey.CPU Scenario.K_explicit "cpu2"]
              (Some DispatchKey.CPU) 1%nat (mkAnnotatedKernel Scenario.K_cpu None "cpu")
              [(2%nat, mkAnnotatedKernel Scenario.K_explicit None "cpu2")] [])
    as [H1 H2]; [vm_compute; reflexivity|].
  split.
  - unfold e', e. rewrite H1. vm_compute. reflexivity.
  - apply H2. discriminate.
Defined.

Lemma deregisterKernel__twice_witness :
  let e1 := snd (registerKernel Scenario.dispatcher (Some DispatchKey.CPU) Scenario.K_cpu
                   None None "cpu" Scenario.fresh) in
  let e2 := snd (deregisterKernel_ Scenario.dispatcher (Some DispatchKey.CPU) 1%nat e1) in
  deregisterKernel_ Scenario.dispatcher (Some DispatchKey.CPU) 1%nat e2
  = (Err InternalAssert, e2).
Proof.
  intros e1 e2.
  apply (deregisterKernel__twice Scenario.dispatcher (Some DispatchKey.CPU) Scenario.K_cpu
           None None "cpu" Scenario.fresh 1%nat e1 e2); vm_compute; reflexivity.
Defined.

Lemma checkInvariants_sound_witness :
  no_undefined Scenario.composite_cpu /\ no_empty_list Scenario.composite_cpu
  /\ exists expected live,
       computeDispatchTableEntry Scenario.composite_cpu Scenario.dispatcher DispatchKey.CPU
       = Ok expected
       /\ live_slot Scenario.composite_cpu DispatchKey.CPU = Some live
       /\ KernelFunction._equalsBoxedAndUnboxed expected live = true.
Proof.
  destruct (checkInvariants_sound Scenario.dispatcher Scenario.composite_cpu)
    as (_ & H2 & H3 & H4); [vm_compute; reflexivity|].
  split; [exact H2|]. split; [exact H3|].
  apply H4; [apply list_elem_of_In; vm_compute; tauto|vm_compute; discriminate].
Defined.

(** The composite kernel is found by the query for its key, not by the
    query for any key of the full set. *)
Lemma existence_queries_witness :
  hasKernelForDispatchKey Scenario.composite DispatchKey.CompositeImplicitAutograd = Ok true
  /\ hasKernelForAnyDispatchKey Scenario.composite FULL = Ok false.
Proof.
  destruct (existence_queries Scenario.composite) as [_ H].
  destruct (H ltac:(vm_compute; reflexivity) DispatchKey.CompositeImplicitAutograd FULL)
    as (H1 & b & H2 & H3).
  split; [rewrite H1; vm_compute; reflexivity|].
  rewrite H2. f_equal. destruct b; [|reflexivity].
  destruct (proj1 H3 eq_refl) as (k' & l & Hk & Ha & _).
  exfalso.
  assert (Hm : kernels_ Scenario.composite
               = {[DispatchKey.CompositeImplicitAutograd
                   := [(1%nat, mkAnnotatedKernel Scenario.K_math None "math")]]})
    by (vm_compute; reflexivity).
  rewrite Hm in Hk. apply lookup_singleton_Some in Hk as [<- _]. discriminate Ha.
Defined.

(** The composite kernel decides [CUDA] even for a dispatcher whose
    fallback table is empty. *)
Lemma fallback_consulted_last_witness :
  computeDispatchTableEntryWithDebug Scenario.composite (mkDispatcher []) DispatchKey.CUDA
  = Ok (mkAnnotatedKernel Scenario.K_math None "math", "math kernel"%string).
Proof.
  apply (fallback_consulted_last Scenario.composite DispatchKey.CUDA);
    vm_compute; reflexivity.
Defined.

(** The entry with a composite and a [CPU] kernel, under a naming of the
    keys that tells [CPU] and the key numbered like its slot from the
    others. *)
Lemma listAllDispatchKeys_lists_valid_slots_witness :
  let toString := fun k : DispatchKey =>
    if k =? DispatchKey.CPU then "CPU"%string
    else if k =? to_uint16 (getDispatchTableIndexForDispatchKey DispatchKey.CPU)
         then "slot of CPU"%string else "other"%string in
  exists rest,
    listAllDispatchKeys toString
      (perform_all Scenario.dispatcher [Scenario.register DispatchKey.CPU Scenario.K_cpu "cpu"]
         Scenario.fresh)
    = Ok ("[slot of CPU" ++ rest)%string.
Proof.
  intros toString.
  rewrite (listAllDispatchKeys_lists_valid_slots toString) by (vm_compute; reflexivity).
  eexists. vm_compute. reflexivity.
Defined.

(** The table computed for the stale entry does not depend on the stale
    table. *)
Lemma dumpComputedTable_lines_witness :
  let toString := fun k : DispatchKey =>
    if k =? DispatchKey.CPU then "CPU"%string else "other"%string in
  dumpComputedTable toString Scenario.dispatcher
    (set_dispatchTable Scenario.composite_explicit [])
  = dumpComputedTable toString Scenario.dispatcher
      (set_dispatchTable Scenario.composite_explicit
         (dispatchTable_ Scenario.composite_explicit)).
Proof.
  intros toString.
  rewrite !(dumpComputedTable_lines toString Scenario.dispatcher Scenario.composite_explicit)
    by (vm_compute; reflexivity).
  reflexivity.
Defined.

Lemma kernel_map_invariants_witness :
  let cs := [Scenario.register DispatchKey.CPU Scenario.K_cpu "cpu";
             call_deregisterKernel (Some DispatchKey.CPU) 1%nat] in
  let e := perform_all Scenario.dispatcher cs
             (snd (OperatorEntry_new Scenario.dispatcher "aten::op")) in
  Forall key_defined cs /\ no_empty_list e /\ no_undefined e.
Proof.
  intros cs e.
  assert (Hcs : Forall key_defined cs).
  { repeat constructor. intros H. discriminate H. }
  destruct (kernel_map_invariants Scenario.dispatcher "aten::op" cs) as [H1 H2].
  split; [exact Hcs|]. split; [exact H1|exact (H2 Hcs)].
Defined.
